(** * ghtimecardator: activity ledger, event classifier and calendar resolver

    A shallow embedding of [ghtimecardator.go] together with the properties
    its specification states about it.

    - Module [time] models the part of Go's [time] package that [pickDate]
      uses (civil calendar, [Weekday], [Date], [AddDate]) for a location with
      a fixed offset from UTC.  Module [zoned] puts the time zone of the
      location on top of it, and [zoned.pickDate] is [pickDate] on instants
      in a location; in a location with a fixed offset both agree.
    - Module [strings] models [strings.ToLower] and [strings.Contains] on
      byte strings.
    - The ledger ([work]) and [handleEvent] are embedded over stdpp's [gmap],
      in a small state monad whose state holds the ledger and the number of
      calls made so far to the chat model. *)

From Stdlib Require Import ZArith String Ascii List Lia Bool DecimalString.
From stdpp Require Import base option list gmap fin_maps strings.

Local Open Scope string_scope.
Local Open Scope Z_scope.

(** ** Go's [time] package, as far as [pickDate] needs it *)

Module time.

(** A [Time] is the number of nanoseconds elapsed on the local wall clock
    since 1970-01-01 00:00:00.  The location has a fixed offset, so wall
    clock arithmetic and elapsed time agree. *)
Record Time : Type := mkTime { wall : Z }.

Definition nsPerSecond : Z := 1000000000.
Definition nsPerDay : Z := 86400 * nsPerSecond.

(** Days since 1970-01-01 and nanoseconds since local midnight. *)
Definition daysOf (t : Time) : Z := wall t / nsPerDay.
Definition nsOfDay (t : Time) : Z := wall t mod nsPerDay.

(** [Weekday]: Sunday = 0, ..., Saturday = 6; 1970-01-01 was a Thursday. *)
Definition Sunday : Z := 0.
Definition Monday : Z := 1.
Definition Weekday (t : Time) : Z := (daysOf t + 4) mod 7.

Definition isLeap (year : Z) : bool :=
  (year mod 4 =? 0) && (negb (year mod 100 =? 0) || (year mod 400 =? 0)).

(** [daysBefore m] is the number of days in a non-leap year before month
    [m + 1] begins; the table has an entry for m = 12 as in Go. *)
Definition daysBefore (m : Z) : Z :=
  match m with
  | 0 => 0 | 1 => 31 | 2 => 59 | 3 => 90 | 4 => 120 | 5 => 151 | 6 => 181
  | 7 => 212 | 8 => 243 | 9 => 273 | 10 => 304 | 11 => 334 | _ => 365
  end.

Definition daysPer400Years : Z := 365 * 400 + 97.
Definition daysPer100Years : Z := 365 * 100 + 24.
Definition daysPer4Years : Z := 365 * 4 + 1.

(** Days from 0001-01-01 to 1970-01-01. *)
Definition unixToInternalDays : Z := 719162.

(** Days from 0001-01-01 to January 1st of year [1 + k]. *)
Definition daysToYear (k : Z) : Z := 365 * k + k / 4 - k / 100 + k / 400.

(** Position of a day inside its 400-year cycle: the number of whole years
    elapsed in the cycle and the day of the year (as [absDate] does, by
    100-, 4- and 1-year cycles). *)
Definition yearInCycle (d : Z) : Z * Z :=
  let n100 := d / daysPer100Years in
  let n100 := n100 - Z.shiftr n100 2 in
  let d := d - daysPer100Years * n100 in
  let n4 := d / daysPer4Years in
  let d := d - daysPer4Years * n4 in
  let n1 := d / 365 in
  let n1 := n1 - Z.shiftr n1 2 in
  let d := d - 365 * n1 in
  (100 * n100 + 4 * n4 + n1, d).

(** Month (1..12) and day of the month from the day of the year. *)
Definition monthDay (leap : bool) (yday : Z) : Z * Z :=
  if leap && (yday =? 31 + 29 - 1) then (2, 29)
  else
    let day := if leap && (31 + 29 - 1 <? yday) then yday - 1 else yday in
    let month := day / 31 in
    let e := daysBefore (month + 1) in
    if e <=? day then (month + 2, day - e + 1)
    else (month + 1, day - daysBefore month + 1).

(** [t.Date()]: year, month and day of [t]. *)
Definition DateOf (t : Time) : Z * Z * Z :=
  let n := daysOf t + unixToInternalDays in
  let cycle := n / daysPer400Years in
  let '(k, yday) := yearInCycle (n mod daysPer400Years) in
  let year := 1 + 400 * cycle + k in
  let '(month, day) := monthDay (isLeap year) yday in
  (year, month, day).

(** [t.Clock()] and the nanosecond within the second. *)
Definition ClockOf (t : Time) : Z * Z * Z :=
  let s := nsOfDay t / nsPerSecond in
  (s / 3600, (s mod 3600) / 60, s mod 60).
Definition Nanosecond (t : Time) : Z := wall t mod nsPerSecond.

(** [time.Date]: month, day and clock values outside their usual ranges
    are normalised, which for a fixed-offset location amounts to carrying
    months into years and adding everything else up. *)
Definition Date (year month day hour min sec nsec : Z) : Time :=
  let m := month - 1 in
  let year := year + m / 12 in
  let m := m mod 12 in
  let d := daysToYear (year - 1) - unixToInternalDays
           + daysBefore m + (if isLeap year && (2 <=? m) then 1 else 0)
           + (day - 1) in
  mkTime (d * nsPerDay + ((hour * 60 + min) * 60 + sec) * nsPerSecond + nsec).

(** [t.AddDate(years, months, days)]. *)
Definition AddDate (years months days : Z) (t : Time) : Time :=
  let '(year, month, day) := DateOf t in
  let '(hour, min, sec) := ClockOf t in
  Date (year + years) (month + months) (day + days) hour min sec (Nanosecond t).

(** [t.Before(u)]. *)
Definition Before (t u : Time) : bool := wall t <? wall u.

End time.

Import time.

(** ** Date helpers *)

(** [pickDate] returns the begin date for the report.  [now] stands for the
    value of [time.Now()]; the error is [fmt.Errorf("invalid argument")]. *)
Definition pickDate (arg : string) (now : Time) : Time * option string :=
  if String.eqb arg "today" then (now, None)
  else if String.eqb arg "yesterday" then (AddDate 0 0 (-1) now, None)
  else if String.eqb arg "last-3days" then (AddDate 0 0 (-3) now, None)
  else if String.eqb arg "this-week" then
    let today := now in
    let offset := Weekday today - Monday in
    let offset := if offset <? 0 then offset + 7 else offset in
    (AddDate 0 0 (- offset) today, None)
  else if String.eqb arg "last-week" then
    let today := now in
    let offset := Weekday today + 6 in
    (AddDate 0 0 (- offset) today, None)
  else if String.eqb arg "this-month" then
    let today := now in
    let '(year, month, _) := DateOf today in
    (Date year month 1 0 0 0 0, None)
  else if String.eqb arg "last-month" then
    let today := now in
    let '(year, month, _) := DateOf today in
    let firstOfThisMonth := Date year month 1 0 0 0 0 in
    (AddDate 0 (-1) 0 firstOfThisMonth, None)
  else (now, Some "invalid argument").

(** The keywords [pickDate] recognises. *)
Definition keywords : list string :=
  ["today"; "yesterday"; "last-3days"; "this-week"; "last-week";
   "this-month"; "last-month"].

(** ** Checking the calendar over one 400-year cycle *)

(** [checkRange f lo k] evaluates [f] on the [2^k] integers from [lo]. *)
Fixpoint checkRange (f : Z -> bool) (lo : Z) (k : nat) : bool :=
  match k with
  | O => f lo
  | S k' => checkRange f lo k' && checkRange f (lo + 2 ^ Z.of_nat k') k'
  end.

(** What has to hold of every day [d] of a 400-year cycle for [Date] to
    undo [DateOf]. *)
Definition cycleOk (d : Z) : bool :=
  (daysPer400Years <=? d) ||
  (let '(k, yday) := yearInCycle d in
   let leap := isLeap (1 + k) in
   let '(month, day) := monthDay leap yday in
   (0 <=? k) && (k <? 400) && (1 <=? month) && (month <=? 12) &&
   (daysToYear k + daysBefore (month - 1)
      + (if leap && (2 <=? month - 1) then 1 else 0) + (day - 1) =? d)).

(** ** Go's [strings] and [fmt] packages, as far as the program needs them *)

Module strings.

(** Strings are byte strings.  [ToLower] maps the bytes 'A'..'Z' to
    'a'..'z' and leaves every other byte alone, which is what Go does on
    ASCII input (owner and repository names are ASCII). *)
Definition isUpper (c : ascii) : bool :=
  (65 <=? nat_of_ascii c)%nat && (nat_of_ascii c <=? 90)%nat.

Definition toLowerByte (c : ascii) : ascii :=
  if isUpper c then ascii_of_nat (nat_of_ascii c + 32) else c.

Fixpoint ToLower (s : string) : string :=
  match s with
  | EmptyString => EmptyString
  | String c s' => String (toLowerByte c) (ToLower s')
  end.

(** [Contains s substr] reports whether [substr] occurs within [s]. *)
Fixpoint Contains (s substr : string) : bool :=
  String.prefix substr s ||
  match s with
  | EmptyString => false
  | String _ s' => Contains s' substr
  end.

(** Some byte of [s] is an upper-case letter. *)
Fixpoint hasUpper (s : string) : bool :=
  match s with
  | EmptyString => false
  | String c s' => isUpper c || hasUpper s'
  end.

End strings.

Module fmt.

Definition nl : string := String "010"%char EmptyString.

(** The verbs [%d] on an integer and [%t] on a boolean. *)
Definition d (n : Z) : string := NilZero.string_of_int (Z.to_int n).
Definition t (b : bool) : string := if b then "true" else "false".

End fmt.

(** ** The events of the GitHub API (package [github]) *)

Module github.

(** The fields of [github.Issue] that the program reads.  [IsPullRequest]
    is whether the issue carries pull request links. *)
Record Issue : Type := mkIssue {
  Issue_Number : Z;
  Issue_HTMLURL : string;
  Issue_Title : string;
  Issue_Body : string;
  Issue_UserLogin : string;
  Issue_IsPullRequest : bool
}.

Record PullRequest : Type := mkPullRequest {
  PR_Number : Z;
  PR_HTMLURL : string;
  PR_Title : string;
  PR_Body : string;
  PR_UserLogin : string;
  PR_Merged : bool
}.

(** The value [e.ParsePayload()] hands to the type switch of
    [handleEvent].  Each constructor carries what the switch reads:
    the action string, the issue or pull request, and the body of the
    comment or review.  [OtherPayload] is a nil payload or one of a type
    the switch has no case for. *)
Inductive Payload : Type :=
| IssuesEvent (Action : string) (issue : Issue)
| PullRequestEvent (Action : string) (pr : PullRequest)
| IssueCommentEvent (Action : string) (issue : Issue) (commentBody : string)
| PullRequestReviewEvent (Action : string) (pr : PullRequest) (reviewBody : string)
| PullRequestReviewCommentEvent (Action : string) (pr : PullRequest) (commentBody : string)
| CommitCommentEvent
| CreateEvent
| DeleteEvent
| MilestoneEvent
| PackageEvent
| PushEvent
| ReleaseEvent
| RepositoryEvent
| RepositoryVulnerabilityAlertEvent
| OtherPayload.

Record Event : Type := mkEvent {
  CreatedAt : Time;
  RepoName : string;
  ParsePayload : Payload
}.

End github.

Import github.

(** ** The ledger *)

Definition ObjectIssue : string := "issue".
Definition ObjectIssueComment : string := "issue comment".
Definition ObjectPR : string := "pull request".
Definition ObjectPRComment : string := "pull request comment".

(** [type id int] *)
Abbreviation id := Z.

Record metadata : Type := mkMetadata {
  eventId : id;          (* issue or pull request number *)
  url : string;          (* issue or pull request URL *)
  title : string;        (* issue or pull request title *)
  description : string;  (* issue or pull request description *)
  author : bool          (* true if I'm the author *)
}.

(** The struct [action]; its first field is also called [action] in the
    source. *)
Record action : Type := mkAction {
  a_action : string;   (* create, edit, delete, etc. *)
  a_object : string;   (* issue, pull request, issue comment, ... *)
  a_content : string   (* the content of the action (summarized) *)
}.

Record work : Type := mkWork {
  issues : gmap Z metadata;
  pulls : gmap Z metadata;
  actions : gmap Z (list action);
  user : string
}.

(** The state of a run: the ledger, and how many calls the chat model has
    answered so far. *)
Record state : Type := mkState {
  w : work;
  llmCalls : nat
}.

(** Computations over the state; [None] is a run-time panic. *)
Definition M (A : Type) : Type := state -> option (A * state).

Definition ret {A : Type} (a : A) : M A := fun s => Some (a, s).

Definition bind {A B : Type} (c : M A) (f : A -> M B) : M B :=
  fun s => match c s with
           | Some (a, s') => f a s'
           | None => None
           end.

Definition panic {A : Type} : M A := fun _ => None.

Definition getWork : M work := fun s => Some (w s, s).

Definition setWork (wk : work) : M unit :=
  fun s => Some (tt, mkState wk (llmCalls s)).

Notation "x <- c1 ;; c2" := (bind c1 (fun x => c2))
  (at level 100, c1 at next level, right associativity).
Notation "c1 ;; c2" := (bind c1 (fun _ => c2))
  (at level 100, right associativity).

(** [w.actions[id]], nil for a missing key. *)
Definition actionsOf (wk : work) (i : id) : list action :=
  default [] (actions wk !! i).

Definition getAction (wk : work) (i : id) : list action :=
  match actions wk !! i with
  | None => []
  | Some l => l
  end.

Definition getIssue (wk : work) (i : id) : option metadata := issues wk !! i.

Definition getPR (wk : work) (i : id) : option metadata := pulls wk !! i.

Definition getIssueOrPR (wk : work) (i : id) : option metadata :=
  match issues wk !! i with
  | Some m => Some m
  | None =>
      match pulls wk !! i with
      | Some m => Some m
      | None => None
      end
  end.

(** Prompt strings *)

Definition actionSummaryString : string := "
You will be given a summary of a GitHub Issue or PR and a series of actions made
by me on it. They will be in the form of:

Summary of the issue or PR (check URL string to see if it is an issue or PR)
-
Author: true or false (if I'm the author of the issue or PR)
-
Action: create, edit, delete, etc.
Object: issue, pull request, issue comment, pull request comment/review.
Content: description.
-
...

Your job is to describe what I did in this issue, or pull request, taking into
consideration the issue description AND the series of actions, objects and
description given in the form above.

Note: I'm creading issues and pull requests, but I'm also commenting in other
people's issues and pull requests (and sometimes replying above quoted text).
So, you should be able to differentiate whether I'm the author of the issue or
PR, or if I'm just commenting on it (or reviewing it).
".

Definition timecardSummaryString : string := "
You will be given a complete report of all the issues and pull requests I
created or commented on in a certain period of time. The report will be in the
form of:

Issues:
Issue: number (URL) title
Description: summary of what I did in the issue
Issue:
...

Pulls:
PR: number (URL) title
Description: summary of what I did in the pull request
PR:
...
".

Definition timecardSummaryExecutive : string := "
Provide an executive summary of the report below. Don't try to sell yourself,
just provide the facts. Differentiate between features, fixes or chores. The
executive summary should be no more than 3-4 sentences.
".

Definition timecardSummaryTechnical : string := "
Provide a technical summary of the report below. Don't try to sell yourself,
just provide the facts. The technical summary should be written in a technical
language. Differentiate between features, fixes, docs, tests, management, ...
Split the technical summary into sections, if needed. Use emojis to
differentiate between sections.
".

(** ** The program *)

Section Program.

(** The chat model behind [llm.Call]: [llmCall n role instr] is the content
    of the answer to the [n]-th call of the run, or [None] when the call
    yields a nil answer (the error that comes with it is discarded by
    [executeAI]).  Answers may differ from call to call. *)
Variable llmCall : nat -> string -> string -> option string.

(** Summarization *)

(** [executeAI] is a helper function that calls the openai api. *)
Definition executeAI (role instr : string) : M string :=
  fun s =>
    let answer := llmCall (llmCalls s) role instr in
    let s' := mkState (w s) (S (llmCalls s)) in
    match answer with
    | None => Some ("", s')
    | Some content => Some (content, s')
    end.

(** [descriptionSummary] returns a summary of the description. *)
Definition descriptionSummary (text : string) : M string :=
  let role := "You are a BOT that rewrites GitHub Issue and PR descriptions." in
  let instr := "Rewrite description below in couple of lines:" ++ fmt.nl ++ fmt.nl ++ text in
  executeAI role instr.

(** [timecardSummary] returns a summary of the timecard. *)
Definition timecardSummary (summaryType report : string) : M string :=
  let role := timecardSummaryString in
  let role :=
    if String.eqb summaryType "executive" then role ++ timecardSummaryExecutive
    else if String.eqb summaryType "technical" then role ++ timecardSummaryTechnical
    else if String.eqb summaryType "detailed"
         then role ++ (timecardSummaryExecutive ++ timecardSummaryTechnical)
    else role in
  executeAI role report.

(** Methods of [work] *)

Definition addIssue (issue : Issue) : M unit :=
  wk <- getWork ;;
  (* sometimes issues are pull requests *)
  let inPulls := Issue_IsPullRequest issue in
  let place := if inPulls then pulls wk else issues wk in
  let i := Issue_Number issue in
  match place !! i with
  | Some _ => ret tt
  | None =>
      summary <- descriptionSummary (Issue_Body issue) ;;
      let meta := {|
        eventId := i;
        url := Issue_HTMLURL issue;
        title := Issue_Title issue;
        description := summary;
        author := String.eqb (Issue_UserLogin issue) (user wk)
      |} in
      if inPulls
      then setWork (mkWork (issues wk) (<[i := meta]> (pulls wk)) (actions wk) (user wk))
      else setWork (mkWork (<[i := meta]> (issues wk)) (pulls wk) (actions wk) (user wk))
  end.

Definition addPullRequest (pr : PullRequest) : M unit :=
  wk <- getWork ;;
  let i := PR_Number pr in
  match pulls wk !! i with
  | Some _ => ret tt
  | None =>
      summary <- descriptionSummary (PR_Body pr) ;;
      let meta := {|
        eventId := i;
        url := PR_HTMLURL pr;
        title := PR_Title pr;
        description := summary;
        author := String.eqb (PR_UserLogin pr) (user wk)
      |} in
      setWork (mkWork (issues wk) (<[i := meta]> (pulls wk)) (actions wk) (user wk))
  end.

Definition addAction (i : id) (a : action) : M unit :=
  wk <- getWork ;;
  setWork (mkWork (issues wk) (pulls wk)
                  (<[i := (actionsOf wk i ++ [a])%list]> (actions wk)) (user wk)).

(** The instruction [actionSummary] builds for the work item [meta],
    numbered [i], from the ledger [wk]. *)
Definition actionSummaryInstr (wk : work) (meta : metadata) (i : id) : string :=
  let instr := "" in
  let instr :=
    instr ++ ("Summary of #" ++ fmt.d (eventId meta) ++ " (" ++ url meta
                ++ ") " ++ title meta ++ fmt.nl ++ "-" ++ fmt.nl) in
  let instr :=
    instr ++ ("Author: " ++ fmt.t (author meta) ++ fmt.nl ++ "-" ++ fmt.nl) in
  let instr :=
    instr ++ ("Description: " ++ description meta ++ fmt.nl ++ "-" ++ fmt.nl) in
  let instr :=
    instr ++ ("Actions: " ++ fmt.d (Z.of_nat (length (actionsOf wk i)))
                ++ fmt.nl ++ "-" ++ fmt.nl) in
  fold_left
    (fun instr a =>
       instr ++ ("Action: " ++ a_action a ++ fmt.nl
                 ++ "Object: " ++ a_object a ++ fmt.nl
                 ++ "Content: " ++ a_content a ++ fmt.nl ++ "-" ++ fmt.nl))
    (actionsOf wk i) instr.

Definition actionSummary (i : id) : M string :=
  wk <- getWork ;;
  let role := actionSummaryString in
  match getIssueOrPR wk i with
  | None => panic (* nil pointer dereference at meta.eventId *)
  | Some meta => executeAI role (actionSummaryInstr wk meta i)
  end.

(** [handleEvent] is called for each event and adds it to the work.  (What
    it prints on a parse error or an unknown event type is left out.) *)
Definition handleEvent (e : Event) : M unit :=
  match ParsePayload e with
  (* General Events *)
  | IssuesEvent act issue =>
      addIssue issue ;;
      content <- descriptionSummary (Issue_Body issue) ;;
      addAction (Issue_Number issue) (mkAction act ObjectIssue content)
  | PullRequestEvent act pr =>
      let realAction := act in
      let realAction :=
        if String.eqb realAction "closed" then
          if PR_Merged pr then "merged" else "closed"
        else realAction in
      addPullRequest pr ;;
      content <- descriptionSummary (PR_Body pr) ;;
      addAction (PR_Number pr) (mkAction realAction ObjectPR content)
  (* Related to Comments, Reviews, etc. *)
  | IssueCommentEvent act issue commentBody =>
      addIssue issue ;;
      content <- descriptionSummary commentBody ;;
      addAction (Issue_Number issue) (mkAction act ObjectIssueComment content)
  | PullRequestReviewEvent act pr reviewBody =>
      addPullRequest pr ;;
      content <- descriptionSummary reviewBody ;;
      addAction (PR_Number pr) (mkAction act ObjectPRComment content)
  | PullRequestReviewCommentEvent act pr commentBody =>
      addPullRequest pr ;;
      content <- descriptionSummary commentBody ;;
      addAction (PR_Number pr) (mkAction act ObjectPRComment content)
  (* TODO *)
  | CommitCommentEvent | CreateEvent | DeleteEvent | MilestoneEvent
  | PackageEvent | PushEvent | ReleaseEvent | RepositoryEvent
  | RepositoryVulnerabilityAlertEvent => ret tt
  | OtherPayload => ret tt
  end.

(** Main program *)

(** The owner/repo argument as [main] prepares it: lowercased when not
    empty, and the program exits ([None]) if it then has no slash. *)
Definition wantedRepoOf (arg : string) : option string :=
  let wantedRepo := arg in
  if negb (String.eqb wantedRepo "") then
    let wantedRepo := strings.ToLower wantedRepo in
    if negb (strings.Contains wantedRepo "/") then None
    else Some wantedRepo
  else Some wantedRepo.

(** The test that makes the event loop [continue]. *)
Definition skipRepo (wantedRepo repoName : string) : bool :=
  negb (String.eqb wantedRepo "") && negb (String.eqb repoName wantedRepo).

(** The loop over the events of one fetched page. *)
Fixpoint handlePage (beginDate : Time) (wantedRepo : string)
    (ghEvents : list Event) : M unit :=
  match ghEvents with
  | [] => ret tt
  | event :: rest =>
      let eventTime := CreatedAt event in
      if Before eventTime beginDate then ret tt (* break *)
      else
        let repoName := RepoName event in
        if skipRepo wantedRepo repoName
        then handlePage beginDate wantedRepo rest (* continue *)
        else handleEvent event ;; handlePage beginDate wantedRepo rest
  end.

(** The loop over the pages the event source returns. *)
Fixpoint handlePages (beginDate : Time) (wantedRepo : string)
    (pages : list (list Event)) : M unit :=
  match pages with
  | [] => ret tt
  | ghEvents :: rest =>
      handlePage beginDate wantedRepo ghEvents ;;
      handlePages beginDate wantedRepo rest
  end.

(** Feeding a sequence of events to [handleEvent], one after the other. *)
Fixpoint ingest (events : list Event) : M unit :=
  match events with
  | [] => ret tt
  | e :: rest => handleEvent e ;; ingest rest
  end.

(** A loop of the report over the items of one map, in the order [items]
    in which the range statement visits them; [kind] is "Issue" or "PR". *)
Fixpoint reportLoop (kind : string) (items : list metadata) (report : string)
    : M string :=
  match items with
  | [] => ret report
  | item :: rest =>
      let i := eventId item in
      result <- actionSummary i ;;
      let report :=
        report ++ (kind ++ ": #" ++ fmt.d (eventId item) ++ " (" ++ url item
                     ++ ") " ++ title item ++ fmt.nl) in
      let report := report ++ ("Description: " ++ result ++ fmt.nl) in
      reportLoop kind rest report
  end.

(** Create a big report (will be used for the timecard).  [range m] is the
    order in which a range statement visits the values of the map [m]. *)
Definition createReport (range : gmap Z metadata -> list metadata) : M string :=
  let report := "" in
  let report := report ++ (fmt.nl ++ "Issues:" ++ fmt.nl ++ fmt.nl) in
  wk <- getWork ;;
  report <- reportLoop "Issue" (range (issues wk)) report ;;
  let report := report ++ (fmt.nl ++ "Pulls:" ++ fmt.nl ++ fmt.nl) in
  wk <- getWork ;;
  reportLoop "PR" (range (pulls wk)) report.

(** Create the timecard. *)
Definition createTimecard (range : gmap Z metadata -> list metadata)
    (summaryType : string) : M string :=
  report <- createReport range ;;
  timecardSummary summaryType report.

End Program.

(** The ledger [main] starts from. *)
Definition newWork (login : string) : work :=
  mkWork ∅ ∅ ∅ login.

Definition initialState (login : string) : state :=
  mkState (newWork login) 0.

(** ** What the type switch of [handleEvent] makes of a payload

    These functions read off, case by case, which work item an event refers
    to, which map its record goes to, and the verb and object kind of the
    action it adds.  They are only used to state properties of
    [handleEvent]. *)

(** The number of the work item the event refers to; [None] for the event
    kinds that [handleEvent] leaves alone. *)
Definition eventNumber (e : Event) : option Z :=
  match ParsePayload e with
  | IssuesEvent _ issue | IssueCommentEvent _ issue _ => Some (Issue_Number issue)
  | PullRequestEvent _ pr | PullRequestReviewEvent _ pr _
  | PullRequestReviewCommentEvent _ pr _ => Some (PR_Number pr)
  | _ => None
  end.

(** Whether the record of the work item goes to [pulls] (else to [issues]). *)
Definition eventInPulls (e : Event) : bool :=
  match ParsePayload e with
  | IssuesEvent _ issue | IssueCommentEvent _ issue _ => Issue_IsPullRequest issue
  | _ => true
  end.

Definition eventVerb (e : Event) : string :=
  match ParsePayload e with
  | IssuesEvent act _ | IssueCommentEvent act _ _
  | PullRequestReviewEvent act _ _ | PullRequestReviewCommentEvent act _ _ => act
  | PullRequestEvent act pr =>
      if String.eqb act "closed"
      then (if PR_Merged pr then "merged" else "closed")
      else act
  | _ => ""
  end.

Definition eventObject (e : Event) : string :=
  match ParsePayload e with
  | IssuesEvent _ _ => ObjectIssue
  | PullRequestEvent _ _ => ObjectPR
  | IssueCommentEvent _ _ _ => ObjectIssueComment
  | PullRequestReviewEvent _ _ _ | PullRequestReviewCommentEvent _ _ _ => ObjectPRComment
  | _ => ""
  end.

(** The event is a classified one that refers to work item [i]. *)
Definition refersTo (i : Z) (e : Event) : bool :=
  match eventNumber e with
  | Some j => j =? i
  | None => false
  end.

(** The event puts the record of work item [i] into [issues], respectively
    into [pulls], unless the map has one already. *)
Definition toIssues (i : Z) (e : Event) : bool :=
  refersTo i e && negb (eventInPulls e).

Definition toPulls (i : Z) (e : Event) : bool :=
  refersTo i e && eventInPulls e.

(** Verb and object kind of a stored action. *)
Definition verbObject (a : action) : string * string := (a_action a, a_object a).

Definition eventVerbObject (e : Event) : string * string :=
  (eventVerb e, eventObject e).

(** Every record of the ledger is stored under its own number. *)
Definition keyed (m : gmap Z metadata) : Prop :=
  forall k item, m !! k = Some item -> eventId item = k.

(** A timeline is non-empty only for a work item that has a record. *)
Definition timelinesHaveRecords (wk : work) : Prop :=
  forall i, actionsOf wk i <> [] ->
            is_Some (issues wk !! i) \/ is_Some (pulls wk !! i).

(** Some event of the sequence puts [i] into [issues] and some event puts
    it into [pulls]. *)
Definition mixedKinds (i : Z) (events : list Event) : bool :=
  existsb (toIssues i) events && existsb (toPulls i) events.

(** A work item handed to [addIssue] or to [addPullRequest], the map that
    call writes to, and the number it writes under. *)
Inductive workItem : Type :=
| IssueItem (issue : Issue)
| PullItem (pr : PullRequest).

Definition itemNumber (x : workItem) : Z :=
  match x with
  | IssueItem issue => Issue_Number issue
  | PullItem pr => PR_Number pr
  end.

Definition itemInPulls (x : workItem) : bool :=
  match x with
  | IssueItem issue => Issue_IsPullRequest issue
  | PullItem _ => true
  end.

Definition targetMap (inPulls : bool) (wk : work) : gmap Z metadata :=
  if inPulls then pulls wk else issues wk.

Definition upsert (llmCall : nat -> string -> string -> option string)
    (x : workItem) : M unit :=
  match x with
  | IssueItem issue => addIssue llmCall issue
  | PullItem pr => addPullRequest llmCall pr
  end.

(** ** The text of the report

    What the report loops of [main] append, written as a function of the
    ledger and of the answers of the chat model.  These definitions are
    only used to state properties of [createReport]. *)

Section ReportText.

Variable llmCall : nat -> string -> string -> option string.

(** The narrative of [item] when its summary is the [n]-th call to the
    chat model: the content of the answer, or the empty string when the
    call yields no answer. *)
Definition narrative (wk : work) (n : nat) (item : metadata) : string :=
  match getIssueOrPR wk (eventId item) with
  | Some meta =>
      match llmCall n actionSummaryString
              (actionSummaryInstr wk meta (eventId item)) with
      | Some content => content
      | None => ""
      end
  | None => ""
  end.

(** The two lines of the report for one item. *)
Definition reportEntry (kind : string) (item : metadata) (result : string) : string :=
  (kind ++ ": #" ++ fmt.d (eventId item) ++ " (" ++ url item ++ ") "
     ++ title item ++ fmt.nl)
  ++ ("Description: " ++ result ++ fmt.nl).

(** The entries of the items, the first of which is summarized by call
    number [n]. *)
Fixpoint reportEntries (kind : string) (wk : work) (n : nat)
    (items : list metadata) : string :=
  match items with
  | [] => ""
  | item :: rest =>
      reportEntry kind item (narrative wk n item)
      ++ reportEntries kind wk (S n) rest
  end.

Definition reportText (wk : work) (n : nat) (issueItems pullItems : list metadata)
    : string :=
  ((fmt.nl ++ "Issues:" ++ fmt.nl ++ fmt.nl)
     ++ reportEntries "Issue" wk n issueItems)
  ++ ((fmt.nl ++ "Pulls:" ++ fmt.nl ++ fmt.nl)
        ++ reportEntries "PR" wk (n + length issueItems) pullItems).

End ReportText.

(** A range statement visits every value of the map once, in some order. *)
Definition visitsAll (range : gmap Z metadata -> list metadata) : Prop :=
  forall m, Permutation (range m) (map snd (map_to_list m)).

(** ** Sample runs *)

Module samples.

(** A chat model that never answers, and one that answers every other
    call by repeating the instruction. *)
Definition silentModel : nat -> string -> string -> option string :=
  fun _ _ _ => None.

Definition echoModel : nat -> string -> string -> option string :=
  fun n _ instr => if Nat.even n then Some instr else None.

(** The state a computation ends in (the start state if it panics). *)
Definition after {A : Type} (c : M A) (s : state) : state :=
  match c s with
  | Some (_, s') => s'
  | None => s
  end.

(** The order in which stdpp lists a map, as one possible range order. *)
Definition listOrder (m : gmap Z metadata) : list metadata :=
  map snd (map_to_list m).

Definition noon : Time := Date 2024 1 3 12 0 0 0.

(** Issue 5 of one repository and pull request 5 of another. *)
Definition issue5 : Issue :=
  mkIssue 5 "https://github.com/o/r/issues/5" "Crash on start"
          "It crashes." "alice" false.

Definition issue5edited : Issue :=
  mkIssue 5 "https://github.com/o/r/issues/5" "Crash on start (fixed)"
          "It crashed." "bob" false.

Definition pull5 : PullRequest :=
  mkPullRequest 5 "https://github.com/o/q/pull/5" "Add a cache"
                "Adds a cache." "bob" true.

(** Pull request 7, as the issue that an issue comment event carries. *)
Definition pull7asIssue : Issue :=
  mkIssue 7 "https://github.com/o/r/pull/7" "Fix the crash"
          "Fixes #5." "alice" true.

Definition issue10 : Issue :=
  mkIssue 10 "https://github.com/o/r/issues/10" "Docs" "Typos." "alice" false.

Definition pull42 : PullRequest :=
  mkPullRequest 42 "https://github.com/o/r/pull/42" "Release" "v1." "alice" true.

Definition issue5opened : Event :=
  mkEvent noon "o/r" (IssuesEvent "opened" issue5).
Definition issue5commented : Event :=
  mkEvent noon "o/r" (IssueCommentEvent "created" issue5 "Still there.").
Definition pull5closed : Event :=
  mkEvent noon "o/q" (PullRequestEvent "closed" pull5).
Definition pull7commented : Event :=
  mkEvent noon "o/r" (IssueCommentEvent "created" pull7asIssue "lgtm").
Definition issue10opened : Event :=
  mkEvent noon "o/r" (IssuesEvent "opened" issue10).
Definition issue10commented : Event :=
  mkEvent noon "o/r" (IssueCommentEvent "created" issue10 "lgtm").
Definition pull42closed : Event :=
  mkEvent noon "o/r" (PullRequestEvent "closed" pull42).
Definition pushed : Event := mkEvent noon "o/r" PushEvent.

End samples.

(** ** The start of [main]: environment and arguments *)

(** [getEnvOrExit]: the value of the variable, or [None] for [os.Exit(1)]
    when it is not set.  [env] stands for [os.Getenv]. *)
Definition getEnvOrExit (env : string -> string) (key : string) : option string :=
  let value := env key in
  if String.eqb value "" then None else Some value.

(** The summary types that [main] accepts. *)
Definition validSummaryType (summaryType : string) : Prop :=
  summaryType = "executive" \/ summaryType = "technical" \/ summaryType = "detailed".

(** How [main] gets past its arguments: it exits with status 1, it panics
    on [args[2]] (index out of range), or it goes on with the values it
    has read. *)
Inductive startup : Type :=
| Exit1
| IndexOutOfRange
| Started (githubUser githubToken openAIToken summaryType wantedRepo : string)
          (beginDate : Time).

(** [main] up to the call of [pickDate].  [args] stands for [flag.Args()],
    and [now] for [time.Now()]. *)
Definition mainStart (env : string -> string) (args : list string) (now : Time)
    : startup :=
  match getEnvOrExit env "GITHUB_USER" with
  | None => Exit1
  | Some githubUser =>
  match getEnvOrExit env "GITHUB_TOKEN" with
  | None => Exit1
  | Some githubToken =>
  match getEnvOrExit env "OPENAI_TOKEN" with
  | None => Exit1
  | Some openAIToken =>
      if (length args <? 2)%nat then Exit1
      else
        let summaryType := nth 1 args "" in
        if negb (String.eqb summaryType "executive")
           && negb (String.eqb summaryType "technical")
           && negb (String.eqb summaryType "detailed")
        then Exit1
        else
          match nth_error args 2 with
          | None => IndexOutOfRange
          | Some wantedRepo =>
              match wantedRepoOf wantedRepo with
              | None => Exit1
              | Some wantedRepo =>
                  (* Get the begin date *)
                  match pickDate (nth 0 args "") now with
                  | (_, Some _) => Exit1
                  | (beginDate, None) =>
                      Started githubUser githubToken openAIToken
                              summaryType wantedRepo beginDate
                  end
              end
          end
  end end end.

(** [main] from the empty ledger on, when the clients are set up and every
    page is fetched: the event loop over the fetched pages, then the report
    and the timecard.  [login] is the login of the GitHub user. *)
Definition mainRun (llmCall : nat -> string -> string -> option string)
    (range : gmap Z metadata -> list metadata)
    (login summaryType wantedRepo : string) (beginDate : Time)
    (pages : list (list Event)) : option (string * state) :=
  (handlePages llmCall beginDate wantedRepo pages ;;
   createTimecard llmCall range summaryType) (initialState login).

(** ** More vocabulary for the event loop and the ledger *)

(** The events of a page that the loop reaches: those before the first
    event older than the begin date. *)
Fixpoint reached (beginDate : Time) (ghEvents : list Event) : list Event :=
  match ghEvents with
  | [] => []
  | event :: rest =>
      if Before (CreatedAt event) beginDate then []
      else event :: reached beginDate rest
  end.

(** The events of a page that are handed to [handleEvent]. *)
Definition handled (beginDate : Time) (wantedRepo : string)
    (ghEvents : list Event) : list Event :=
  List.filter (fun event => negb (skipRepo wantedRepo (RepoName event)))
              (reached beginDate ghEvents).

(** The event is of a kind that [handleEvent] records. *)
Definition classified (e : Event) : bool :=
  match eventNumber e with
  | Some _ => true
  | None => false
  end.

(** The work item that the event hands to [addIssue] or [addPullRequest]. *)
Definition eventItem (e : Event) : option workItem :=
  match ParsePayload e with
  | IssuesEvent _ issue | IssueCommentEvent _ issue _ => Some (IssueItem issue)
  | PullRequestEvent _ pr | PullRequestReviewEvent _ pr _
  | PullRequestReviewCommentEvent _ pr _ => Some (PullItem pr)
  | _ => None
  end.

Definition itemURL (x : workItem) : string :=
  match x with
  | IssueItem issue => Issue_HTMLURL issue
  | PullItem pr => PR_HTMLURL pr
  end.

Definition itemTitle (x : workItem) : string :=
  match x with
  | IssueItem issue => Issue_Title issue
  | PullItem pr => PR_Title pr
  end.

Definition itemLogin (x : workItem) : string :=
  match x with
  | IssueItem issue => Issue_UserLogin issue
  | PullItem pr => PR_UserLogin pr
  end.

(** The event puts the record of work item [i] into the map chosen by
    [inPulls], unless the map has one already. *)
Definition routes (inPulls : bool) (i : Z) (e : Event) : bool :=
  refersTo i e && Bool.eqb (eventInPulls e) inPulls.

(** Some byte of the string is a slash. *)
Fixpoint hasSlash (s : string) : bool :=
  match s with
  | EmptyString => false
  | String c s' => Ascii.eqb c "/" || hasSlash s'
  end.

(** The text that the event hands to [descriptionSummary] for the content
    of its action. *)
Definition eventBody (e : Event) : string :=
  match ParsePayload e with
  | IssuesEvent _ issue => Issue_Body issue
  | PullRequestEvent _ pr => PR_Body pr
  | IssueCommentEvent _ _ commentBody => commentBody
  | PullRequestReviewEvent _ _ reviewBody => reviewBody
  | PullRequestReviewCommentEvent _ _ commentBody => commentBody
  | _ => ""
  end.

(** Role and instruction of the call that [descriptionSummary] makes. *)
Definition rewriteRole : string :=
  "You are a BOT that rewrites GitHub Issue and PR descriptions.".

Definition rewriteInstr (text : string) : string :=
  "Rewrite description below in couple of lines:" ++ fmt.nl ++ fmt.nl ++ text.

(** ** First days of months *)

(** Days from 0001-01-01 to the first day of the month numbered [j], where
    the months are counted from January of the year 1 on. *)
Definition firstDayOfMonth (j : Z) : Z :=
  let k := j / 12 in
  let m := j mod 12 in
  daysToYear k + daysBefore m + (if isLeap (1 + k) && (2 <=? m) then 1 else 0).

(** What has to hold of the month [j] of a 400-year cycle for [DateOf] to
    undo [Date] on its first day, and the length of the month. *)
Definition monthOk (j : Z) : bool :=
  (4800 <=? j) ||
  (let k := j / 12 in
   let m := j mod 12 in
   let leap := isLeap (1 + k) in
   let d := firstDayOfMonth j in
   let '(k', yday) := yearInCycle d in
   let '(month, day) := monthDay leap yday in
   (0 <=? d) && (d <? daysPer400Years) && (k' =? k) && (month =? m + 1)
   && (day =? 1)
   && (28 <=? firstDayOfMonth (j + 1) - d)
   && (firstDayOfMonth (j + 1) - d <=? 31)).

(** The day of the month is between 1 and 31 on every day of a cycle. *)
Definition dayOk (d : Z) : bool :=
  (daysPer400Years <=? d) ||
  (let '(k, yday) := yearInCycle d in
   let '(_, day) := monthDay (isLeap (1 + k)) yday in
   (1 <=? day) && (day <=? 31)).

(** ** Instants in a location

    [time.Now()] is an instant in the local time zone, and Go's [Date],
    [AddDate], [Weekday] and the like read or build the wall clock of an
    instant through the zone that the location has in effect.  Module
    [zoned] adds that to the calendar of module [time]: an instant is a
    number of nanoseconds since the Unix epoch, and a location tells, for
    a Unix time in seconds, which zone is in effect. *)

Module zoned.

(** What [l.lookup(sec)] returns of a zone: its offset in seconds east of
    UTC, and the Unix times at which it starts and ends to be in effect. *)
Record zone : Type := mkZone {
  offset : Z;
  zoneStart : Z;
  zoneEnd : Z
}.

(** A location, as its [lookup]. *)
Definition Location : Type := Z -> zone.

(** An instant: nanoseconds since 1970-01-01 00:00:00 UTC. *)
Record Time : Type := mkTime { unixNano : Z }.

Definition unixSec (t : Time) : Z := unixNano t / nsPerSecond.

(** The wall clock that the instant shows in the location ([t.abs()]). *)
Definition wallClock (loc : Location) (t : Time) : time.Time :=
  time.mkTime (unixNano t + offset (loc (unixSec t)) * nsPerSecond).

Definition DateOf (loc : Location) (t : Time) : Z * Z * Z :=
  time.DateOf (wallClock loc t).

Definition ClockOf (loc : Location) (t : Time) : Z * Z * Z :=
  time.ClockOf (wallClock loc t).

Definition Nanosecond (t : Time) : Z := unixNano t mod nsPerSecond.

Definition Weekday (loc : Location) (t : Time) : Z :=
  time.Weekday (wallClock loc t).

(** [time.Date] in a location: the civil time is first taken as if it were
    UTC; the zone found for that Unix time gives a first offset, which is
    replaced by the offset of the zone in effect at the adjusted time when
    that time falls outside the span of the first zone. *)
Definition Date (loc : Location) (year month day hour min sec nsec : Z) : Time :=
  let civil := wall (time.Date year month day hour min sec nsec) in
  let unix := civil / nsPerSecond in
  let nsec := civil mod nsPerSecond in
  let z := loc unix in
  let unix :=
    if negb (offset z =? 0) then
      let utc := unix - offset z in
      let off := if (utc <? zoneStart z) || (zoneEnd z <=? utc)
                 then offset (loc utc) else offset z in
      unix - off
    else unix in
  mkTime (unix * nsPerSecond + nsec).

Definition AddDate (loc : Location) (years months days : Z) (t : Time) : Time :=
  let '(year, month, day) := DateOf loc t in
  let '(hour, min, sec) := ClockOf loc t in
  Date loc (year + years) (month + months) (day + days) hour min sec (Nanosecond t).

Definition Before (t u : Time) : bool := unixNano t <? unixNano u.

(** [pickDate] with [time.Now()] an instant [now] in the location [loc]
    ([time.Local]); the begin date is an instant in that location. *)
Definition pickDate (loc : Location) (arg : string) (now : Time)
    : Time * option string :=
  if String.eqb arg "today" then (now, None)
  else if String.eqb arg "yesterday" then (AddDate loc 0 0 (-1) now, None)
  else if String.eqb arg "last-3days" then (AddDate loc 0 0 (-3) now, None)
  else if String.eqb arg "this-week" then
    let today := now in
    let offset := Weekday loc today - Monday in
    let offset := if offset <? 0 then offset + 7 else offset in
    (AddDate loc 0 0 (- offset) today, None)
  else if String.eqb arg "last-week" then
    let today := now in
    let offset := Weekday loc today + 6 in
    (AddDate loc 0 0 (- offset) today, None)
  else if String.eqb arg "this-month" then
    let today := now in
    let '(year, month, _) := DateOf loc today in
    (Date loc year month 1 0 0 0 0, None)
  else if String.eqb arg "last-month" then
    let today := now in
    let '(year, month, _) := DateOf loc today in
    let firstOfThisMonth := Date loc year month 1 0 0 0 0 in
    (AddDate loc 0 (-1) 0 firstOfThisMonth, None)
  else (now, Some "invalid argument").

(** The location has the same offset at all times (UTC, or a zone without
    daylight saving and without changes of its standard time). *)
Definition fixedOffset (loc : Location) (off : Z) : Prop :=
  forall u, offset (loc u) = off.

(** UTC. *)
Definition UTC : Location :=
  fun _ => mkZone 0 (- 2 ^ 63) (2 ^ 63 - 1).

(** New York between November 2023 and November 2024: Eastern Standard
    Time until 2024-03-10 07:00:00 UTC, Eastern Daylight Time after. *)
Definition NewYork2024 : Location :=
  fun u =>
    if u <? 1710054000
    then mkZone (-18000) 1699164000 1710054000
    else mkZone (-14400) 1710054000 1730613600.

End zoned.

(** ** More sample data *)

Module more_samples.

Import samples.


(** An event of the first of January, older than [noon] of the third. *)
Definition newYear : Time := Date 2024 1 1 0 0 0 0.
Definition pushedAtNewYear : Event := mkEvent newYear "o/r" PushEvent.

(** The state after pull request 5 has been recorded. *)
Definition withPull5 : state :=
  after (upsert echoModel (PullItem pull5)) (initialState "alice").

Definition pull5record : metadata :=
  mkMetadata 5 "https://github.com/o/q/pull/5" "Add a cache"
    (rewriteInstr "Adds a cache.") false.

Definition pull5reviewed : Event :=
  mkEvent noon "o/q" (PullRequestReviewEvent "created" pull5 "Looks fine.").

Definition issue5reopened : Event :=
  mkEvent noon "o/r" (IssuesEvent "reopened" issue5edited).

(** Noon of Wednesday 3 January 2024, in UTC. *)
Definition noonUTC : zoned.Time := zoned.Date zoned.UTC 2024 1 3 12 0 0 0.

End more_samples.

(** * Tactics *)

(** Linear arithmetic with division and remainder by constants. *)
Ltac zlia := Z.div_mod_to_equations; lia.

(** Runs a computation of [M] to its end, splitting on every test. *)
Ltac run :=
  unfold handleEvent, upsert, addIssue, addPullRequest, addAction,
    descriptionSummary, executeAI, bind, ret, getWork, setWork in *;
  repeat (case_match; simplify_eq/=).

(** Closes the propositional goals left about lookups. *)
Ltac settle :=
  first [ tauto | intuition (subst; eauto; congruence) ].

(** Exposes the lookups behind the timelines of a ledger. *)
Ltac timeline :=
  unfold actionsOf; cbn [actions w]; rewrite ?lookup_insert.

(** Decides that a key is present in a concrete map. *)
Ltac present :=
  match goal with
  | |- is_Some _ => apply (bool_decide_unpack _); vm_compute; exact I
  end.

(** * Properties *)

(** ** The calendar model *)

Module time_facts.

Lemma checkRange_sound (f : Z -> bool) (k : nat) :
  forall lo, checkRange f lo k = true ->
  forall x, lo <= x < lo + 2 ^ Z.of_nat k -> f x = true.
Proof.
  induction k as [|k IH]; intros lo Hc x Hx.
  - simpl in *. assert (x = lo) by lia. now subst.
  - cbn [checkRange] in Hc. apply andb_true_iff in Hc as [H1 H2].
    assert (E : 2 ^ Z.of_nat (S k) = 2 * 2 ^ Z.of_nat k).
    { rewrite Nat2Z.inj_succ, Z.pow_succ_r; lia. }
    rewrite E in Hx.
    destruct (Z_lt_le_dec x (lo + 2 ^ Z.of_nat k)).
    + apply (IH lo H1). lia.
    + apply (IH _ H2). lia.
Qed.

Lemma cycleOk_low : checkRange cycleOk 0 17 = true.
Proof. vm_cast_no_check (eq_refl true). Qed.

Lemma cycleOk_high : checkRange cycleOk 131072 14 = true.
Proof. vm_cast_no_check (eq_refl true). Qed.

Lemma cycleOk_spec (d : Z) :
  0 <= d < daysPer400Years -> cycleOk d = true.
Proof.
  unfold daysPer400Years. intros Hd.
  destruct (Z_lt_le_dec d 131072).
  - apply (checkRange_sound cycleOk 17 0 cycleOk_low).
    change (2 ^ Z.of_nat 17) with 131072. lia.
  - apply (checkRange_sound cycleOk 14 131072 cycleOk_high).
    change (2 ^ Z.of_nat 14) with 16384. lia.
Qed.

Lemma isLeap_cycle (c k : Z) : isLeap (1 + 400 * c + k) = isLeap (1 + k).
Proof.
  unfold isLeap.
  replace ((1 + 400 * c + k) mod 4) with ((1 + k) mod 4) by zlia.
  replace ((1 + 400 * c + k) mod 100) with ((1 + k) mod 100) by zlia.
  replace ((1 + 400 * c + k) mod 400) with ((1 + k) mod 400) by zlia.
  reflexivity.
Qed.

Lemma daysToYear_cycle (c k : Z) :
  daysToYear (400 * c + k) = daysPer400Years * c + daysToYear k.
Proof. unfold daysToYear, daysPer400Years. zlia. Qed.

Lemma clock_recompose (t : Time) :
  let '(hour, min, sec) := ClockOf t in
  ((hour * 60 + min) * 60 + sec) * nsPerSecond + Nanosecond t = nsOfDay t.
Proof.
  unfold ClockOf, Nanosecond, nsOfDay, nsPerDay, nsPerSecond. zlia.
Qed.

(** The calendar date of a day number determines the day number. *)
Lemma Date_DateOf (t : Time) (year month day : Z) :
  DateOf t = (year, month, day) ->
  1 <= month <= 12 /\
  daysToYear (year - 1) - unixToInternalDays + daysBefore (month - 1)
    + (if isLeap year && (2 <=? month - 1) then 1 else 0) + (day - 1)
  = daysOf t.
Proof.
  unfold DateOf.
  set (n := daysOf t + unixToInternalDays).
  assert (Hr : 0 <= n mod daysPer400Years < daysPer400Years)
    by (apply Z.mod_pos_bound; reflexivity).
  pose proof (cycleOk_spec _ Hr) as Hok. unfold cycleOk in Hok.
  destruct (yearInCycle (n mod daysPer400Years)) as [k yday].
  rewrite isLeap_cycle.
  destruct (monthDay (isLeap (1 + k)) yday) as [m d].
  intros [= <- <- <-].
  apply orb_true_iff in Hok as [Hok|Hok]; [lia|].
  repeat (apply andb_true_iff in Hok as [Hok ?]).
  split; [lia|].
  replace (1 + 400 * (n / daysPer400Years) + k - 1)
    with (400 * (n / daysPer400Years) + k) by lia.
  rewrite isLeap_cycle, daysToYear_cycle.
  assert (n = daysPer400Years * (n / daysPer400Years) + n mod daysPer400Years)
    by (apply Z.div_mod; discriminate).
  subst n. lia.
Qed.

(** [AddDate] with only a day count moves the wall clock by that many
    whole days. *)
Lemma AddDate_days (k : Z) (t : Time) :
  AddDate 0 0 k t = mkTime (wall t + k * nsPerDay).
Proof.
  unfold AddDate.
  destruct (DateOf t) as [[year month] day] eqn:E.
  apply Date_DateOf in E as [Hm E].
  pose proof (clock_recompose t) as Hc.
  destruct (ClockOf t) as [[hour min] sec].
  unfold Date. f_equal.
  replace (month + 0 - 1) with (month - 1) by lia.
  replace ((month - 1) / 12) with 0 by zlia.
  replace ((month - 1) mod 12) with (month - 1) by zlia.
  replace (year + 0 + 0) with year by lia.
  assert (W : wall t = daysOf t * nsPerDay + nsOfDay t).
  { unfold daysOf, nsOfDay. pose proof (Z.div_mod (wall t) nsPerDay).
    unfold nsPerDay, nsPerSecond in *. lia. }
  rewrite W, <- Hc, <- E. unfold nsPerDay, nsPerSecond. lia.
Qed.

End time_facts.

(** ** Calendar Range Resolver *)

Import time_facts.

(** [this-week] goes back to the Monday on or before [now] and keeps the
    time of day: the begin date is [now] minus [(Weekday now + 6) mod 7]
    whole days. *)
Lemma pickDate_this_week (now : Time) :
  pickDate "this-week" now
  = (mkTime (wall now - ((Weekday now + 6) mod 7) * nsPerDay), None).
Proof.
  unfold pickDate. cbn [String.eqb Ascii.eqb Bool.eqb].
  rewrite AddDate_days.
  assert (0 <= Weekday now < 7) by (unfold Weekday; zlia).
  replace (if Weekday now - Monday <? 0
           then Weekday now - Monday + 7 else Weekday now - Monday)
    with ((Weekday now + 6) mod 7)
    by (unfold Monday; destruct (Z.ltb_spec (Weekday now - 1) 0); zlia).
  do 2 f_equal. lia.
Qed.

(** [last-week] goes back [Weekday now + 6] whole days, Sunday being 0. *)
Lemma pickDate_last_week (now : Time) :
  pickDate "last-week" now
  = (mkTime (wall now - (Weekday now + 6) * nsPerDay), None).
Proof.
  unfold pickDate. cbn [String.eqb Ascii.eqb Bool.eqb].
  rewrite AddDate_days. do 2 f_equal. lia.
Qed.

Lemma Weekday_shift (t : Time) (k : Z) :
  Weekday (mkTime (wall t + k * nsPerDay)) = (Weekday t + k) mod 7.
Proof.
  unfold Weekday, daysOf. cbn [wall].
  rewrite Z.div_add by discriminate. zlia.
Qed.

Lemma nsOfDay_shift (t : Time) (k : Z) :
  nsOfDay (mkTime (wall t + k * nsPerDay)) = nsOfDay t.
Proof. unfold nsOfDay. cbn [wall]. apply Z_mod_plus_full. Qed.

(** What [this-week] does deliver for every [now]: no error, a Monday, not
    after [now] and less than a week before it, six days back on a Sunday,
    and at the time of day of [now] (so at midnight only if [now] is). *)
Lemma pickDate_this_week_monday (now : Time) :
  let r := pickDate "this-week" now in
  snd r = None /\
  Weekday (fst r) = Monday /\
  wall (fst r) <= wall now /\
  wall now - wall (fst r) < 7 * nsPerDay /\
  (Weekday now = Sunday -> wall (fst r) = wall now - 6 * nsPerDay) /\
  nsOfDay (fst r) = nsOfDay now.
Proof.
  rewrite pickDate_this_week. cbn [fst snd wall].
  assert (Hw : 0 <= Weekday now < 7) by (unfold Weekday; zlia).
  set (off := (Weekday now + 6) mod 7).
  assert (Ho : 0 <= off < 7) by (subst off; zlia).
  replace (wall now - off * nsPerDay) with (wall now + (- off) * nsPerDay) by lia.
  split; [reflexivity|]. split.
  { rewrite Weekday_shift. subst off. unfold Monday. zlia. }
  unfold nsPerDay, nsPerSecond in *.
  split; [lia|]. split; [lia|]. split.
  { intros Hs. unfold Sunday in Hs. subst off. rewrite Hs.
    change ((0 + 6) mod 7) with 6. lia. }
  apply (nsOfDay_shift now (- off)).
Qed.

(** On every day but Sunday [last-week] is exactly seven days before
    [this-week]; on a Sunday the two coincide. *)
Lemma pickDate_last_week_gap (now : Time) :
  wall (fst (pickDate "this-week" now)) - wall (fst (pickDate "last-week" now))
  = if Weekday now =? Sunday then 0 else 7 * nsPerDay.
Proof.
  rewrite pickDate_this_week, pickDate_last_week. cbn [fst wall].
  assert (Hw : 0 <= Weekday now < 7) by (unfold Weekday; zlia).
  unfold Sunday. destruct (Z.eqb_spec (Weekday now) 0) as [E|E].
  - rewrite E. change ((0 + 6) mod 7) with 6. lia.
  - replace ((Weekday now + 6) mod 7) with (Weekday now - 1) by zlia.
    unfold nsPerDay, nsPerSecond. lia.
Qed.

(** The month keywords, unlike the week keywords, yield a begin date at
    local midnight. *)
Lemma pickDate_this_month_midnight (now : Time) :
  snd (pickDate "this-month" now) = None /\
  nsOfDay (fst (pickDate "this-month" now)) = 0.
Proof.
  unfold pickDate. cbn [String.eqb Ascii.eqb Bool.eqb].
  destruct (DateOf now) as [[year month] day]. cbn [fst snd].
  split; [reflexivity|].
  unfold Date, nsOfDay. cbn [wall].
  match goal with
  | |- (?d * nsPerDay + ?c * nsPerSecond + 0) mod nsPerDay = 0 =>
      replace (d * nsPerDay + c * nsPerSecond + 0) with (d * nsPerDay) by lia
  end.
  apply Z_mod_mult.
Qed.

(** C2, at Wednesday 2024-01-03 15:00:00: [this-week] resolves to Monday
    2024-01-01 at 15:00:00, fifteen hours after the local midnight the
    claim asks for. *)
Theorem C2_this_week_keeps_time_of_day :
  let now := Date 2024 1 3 15 0 0 0 in
  pickDate "this-week" now = (Date 2024 1 1 15 0 0 0, None) /\
  Weekday (fst (pickDate "this-week" now)) = Monday /\
  ClockOf (fst (pickDate "this-week" now)) = (15, 0, 0) /\
  fst (pickDate "this-week" now) <> Date 2024 1 1 0 0 0 0.
Proof. vm_compute. repeat split; discriminate. Qed.

(** C3, at Sunday 2024-01-07 12:00:00: [last-week] and [this-week] both
    resolve to Monday 2024-01-01 12:00:00, where the claim asks for
    Monday 2023-12-25, seven days earlier. *)
Theorem C3_last_week_on_sunday :
  let now := Date 2024 1 7 12 0 0 0 in
  Weekday now = Sunday /\
  pickDate "this-week" now = (Date 2024 1 1 12 0 0 0, None) /\
  pickDate "last-week" now = (Date 2024 1 1 12 0 0 0, None) /\
  wall (fst (pickDate "last-week" now))
    <> wall (fst (pickDate "this-week" now)) - 7 * nsPerDay.
Proof. vm_compute. repeat split; discriminate. Qed.

Lemma pickDate_keyword (arg : string) (now : Time) :
  In arg keywords -> snd (pickDate arg now) = None.
Proof.
  unfold keywords. cbn [In].
  intros H. repeat (destruct H as [<-|H]; [|]); try contradiction;
    unfold pickDate; cbn [String.eqb Ascii.eqb Bool.eqb];
    try reflexivity;
    destruct (DateOf now) as [[year month] day]; reflexivity.
Qed.

Lemma pickDate_other (arg : string) (now : Time) :
  ~ In arg keywords -> pickDate arg now = (now, Some "invalid argument").
Proof.
  unfold keywords. cbn [In]. intros H. unfold pickDate.
  repeat match goal with
  | |- context [String.eqb arg ?k] =>
      destruct (String.eqb_spec arg k) as [E|_];
        [exfalso; apply H; rewrite E; auto 10|]
  end.
  reflexivity.
Qed.

(** C8: [pickDate] reports an error exactly when its argument is not one of
    the seven keywords; the error is then "invalid argument", and for a
    keyword the result carries no error. *)
Theorem C8_pickDate_error_iff_unknown_keyword (arg : string) (now : Time) :
  (snd (pickDate arg now) = None <-> In arg keywords) /\
  (snd (pickDate arg now) = Some "invalid argument" <-> ~ In arg keywords).
Proof.
  destruct (in_dec string_dec arg keywords) as [Hin|Hout].
  - rewrite (pickDate_keyword arg now Hin).
    split; split; intros; try discriminate; tauto.
  - rewrite (pickDate_other arg now Hout). cbn [snd].
    split; split; intros; try discriminate; tauto.
Qed.

(** ** Activity ledger and event classifier *)

Section LedgerFacts.

Variable llmCall : nat -> string -> string -> option string.

(** *** One event *)

Lemma handleEvent_total (e : Event) (s : state) :
  exists s', handleEvent llmCall e s = Some (tt, s').
Proof. run; eauto. Qed.

Lemma handleEvent_user (e : Event) (s s' : state) :
  handleEvent llmCall e s = Some (tt, s') -> user (w s') = user (w s).
Proof. intros H. run; reflexivity. Qed.

Lemma handleEvent_issues (e : Event) (s s' : state) (i : Z) :
  handleEvent llmCall e s = Some (tt, s') ->
  is_Some (issues (w s') !! i)
  <-> is_Some (issues (w s) !! i) \/ toIssues i e = true.
Proof.
  unfold toIssues, refersTo, eventNumber, eventInPulls.
  intros H. run;
    rewrite ?lookup_insert, ?andb_true_r, ?andb_false_r, ?Z.eqb_eq;
    try case_decide; settle.
Qed.

Lemma handleEvent_pulls (e : Event) (s s' : state) (i : Z) :
  handleEvent llmCall e s = Some (tt, s') ->
  is_Some (pulls (w s') !! i)
  <-> is_Some (pulls (w s) !! i) \/ toPulls i e = true.
Proof.
  unfold toPulls, refersTo, eventNumber, eventInPulls.
  intros H. run;
    rewrite ?lookup_insert, ?andb_true_r, ?andb_false_r, ?Z.eqb_eq;
    try case_decide; settle.
Qed.

(** A record, once stored, is never replaced. *)
Lemma handleEvent_keeps (e : Event) (s s' : state) (i : Z) (item : metadata) :
  handleEvent llmCall e s = Some (tt, s') ->
  (issues (w s) !! i = Some item -> issues (w s') !! i = Some item) /\
  (pulls (w s) !! i = Some item -> pulls (w s') !! i = Some item).
Proof.
  intros H. run; split; intros Hi; try assumption;
    rewrite lookup_insert; case_decide; congruence.
Qed.

Lemma handleEvent_keyed (e : Event) (s s' : state) :
  handleEvent llmCall e s = Some (tt, s') ->
  keyed (issues (w s)) -> keyed (pulls (w s)) ->
  keyed (issues (w s')) /\ keyed (pulls (w s')).
Proof.
  unfold keyed. intros H Ki Kp.
  run; split; intros k item; rewrite ?lookup_insert;
    try case_decide; intros; simplify_eq/=; eauto.
Qed.

(** The event appends one action to the timeline of the work item it
    refers to and leaves the other timelines alone. *)
Lemma handleEvent_actions_other (e : Event) (s s' : state) (i : Z) :
  handleEvent llmCall e s = Some (tt, s') ->
  refersTo i e = false ->
  actionsOf (w s') i = actionsOf (w s) i.
Proof.
  unfold refersTo, eventNumber. intros H Hr.
  run; timeline; try case_decide; subst;
    rewrite ?Z.eqb_refl in *; try discriminate; reflexivity.
Qed.

Lemma handleEvent_actions_same (e : Event) (s s' : state) (i : Z) :
  handleEvent llmCall e s = Some (tt, s') ->
  refersTo i e = true ->
  exists content,
    actionsOf (w s') i
    = (actionsOf (w s) i ++ [mkAction (eventVerb e) (eventObject e) content])%list.
Proof.
  unfold refersTo, eventNumber, eventVerb, eventObject. intros H Hr.
  run; try discriminate; apply Z.eqb_eq in Hr; subst;
    timeline; (case_decide; [|contradiction]);
    eexists; reflexivity.
Qed.

Lemma handleEvent_actions (e : Event) (s s' : state) (i : Z) :
  handleEvent llmCall e s = Some (tt, s') ->
  map verbObject (actionsOf (w s') i)
  = (map verbObject (actionsOf (w s) i)
       ++ if refersTo i e then [eventVerbObject e] else [])%list.
Proof.
  intros H. destruct (refersTo i e) eqn:Hr.
  - destruct (handleEvent_actions_same e s s' i H Hr) as [c ->].
    now rewrite map_app.
  - rewrite (handleEvent_actions_other e s s' i H Hr).
    now rewrite app_nil_r.
Qed.

Lemma handleEvent_timelines (e : Event) (s s' : state) :
  handleEvent llmCall e s = Some (tt, s') ->
  timelinesHaveRecords (w s) -> timelinesHaveRecords (w s').
Proof.
  intros H Inv i Hi.
  rewrite (handleEvent_issues e s s' i H), (handleEvent_pulls e s s' i H).
  unfold toIssues, toPulls.
  destruct (refersTo i e) eqn:Hr.
  - destruct (eventInPulls e); cbn; auto.
  - rewrite (handleEvent_actions_other e s s' i H Hr) in Hi.
    destruct (Inv i Hi); auto.
Qed.

(** *** A sequence of events *)

Lemma ingest_total (events : list Event) (s : state) :
  exists s', ingest llmCall events s = Some (tt, s').
Proof.
  revert s. induction events as [|e events IH]; intros s; cbn [ingest].
  - now exists s.
  - unfold bind. destruct (handleEvent_total e s) as [s1 ->]. apply IH.
Qed.

(** Unfolds one step of [ingest]. *)
Lemma ingest_cons (e : Event) (events : list Event) (s s' : state) :
  ingest llmCall (e :: events) s = Some (tt, s') ->
  exists s1, handleEvent llmCall e s = Some (tt, s1) /\
             ingest llmCall events s1 = Some (tt, s').
Proof.
  cbn [ingest]. unfold bind.
  destruct (handleEvent_total e s) as [s1 E]. rewrite E. eauto.
Qed.

Lemma ingest_issues (events : list Event) (s s' : state) (i : Z) :
  ingest llmCall events s = Some (tt, s') ->
  is_Some (issues (w s') !! i)
  <-> is_Some (issues (w s) !! i) \/ existsb (toIssues i) events = true.
Proof.
  revert s. induction events as [|e events IH]; intros s H.
  - cbn in H. injection H as <-. cbn. intuition discriminate.
  - apply ingest_cons in H as (s1 & H1 & H2).
    rewrite (IH s1 H2), (handleEvent_issues e s s1 i H1).
    cbn [existsb]. rewrite orb_true_iff. tauto.
Qed.

Lemma ingest_pulls (events : list Event) (s s' : state) (i : Z) :
  ingest llmCall events s = Some (tt, s') ->
  is_Some (pulls (w s') !! i)
  <-> is_Some (pulls (w s) !! i) \/ existsb (toPulls i) events = true.
Proof.
  revert s. induction events as [|e events IH]; intros s H.
  - cbn in H. injection H as <-. cbn. intuition discriminate.
  - apply ingest_cons in H as (s1 & H1 & H2).
    rewrite (IH s1 H2), (handleEvent_pulls e s s1 i H1).
    cbn [existsb]. rewrite orb_true_iff. tauto.
Qed.

Lemma ingest_actions (events : list Event) (s s' : state) (i : Z) :
  ingest llmCall events s = Some (tt, s') ->
  map verbObject (actionsOf (w s') i)
  = (map verbObject (actionsOf (w s) i)
       ++ map eventVerbObject (List.filter (refersTo i) events))%list.
Proof.
  revert s. induction events as [|e events IH]; intros s H.
  - cbn in H. injection H as <-. cbn. now rewrite app_nil_r.
  - apply ingest_cons in H as (s1 & H1 & H2).
    rewrite (IH s1 H2), (handleEvent_actions e s s1 i H1).
    cbn [List.filter]. destruct (refersTo i e); cbn [map].
    + now rewrite <- app_assoc.
    + now rewrite app_nil_r.
Qed.

Lemma ingest_timelines (events : list Event) (s s' : state) :
  ingest llmCall events s = Some (tt, s') ->
  timelinesHaveRecords (w s) -> timelinesHaveRecords (w s').
Proof.
  revert s. induction events as [|e events IH]; intros s H Inv.
  - cbn in H. now injection H as <-.
  - apply ingest_cons in H as (s1 & H1 & H2).
    eapply IH; [eassumption|]. eapply handleEvent_timelines; eassumption.
Qed.

Lemma ingest_keyed (events : list Event) (s s' : state) :
  ingest llmCall events s = Some (tt, s') ->
  keyed (issues (w s)) -> keyed (pulls (w s)) ->
  keyed (issues (w s')) /\ keyed (pulls (w s')).
Proof.
  revert s. induction events as [|e events IH]; intros s H Ki Kp.
  - cbn in H. now injection H as <-.
  - apply ingest_cons in H as (s1 & H1 & H2).
    destruct (handleEvent_keyed e s s1 H1 Ki Kp). eauto.
Qed.

(** An id ends up in both maps exactly when the events disagree on the
    kind of the work item. *)
Lemma ingest_both_maps (login : string) (events : list Event) (s' : state) (i : Z) :
  ingest llmCall events (initialState login) = Some (tt, s') ->
  is_Some (issues (w s') !! i) /\ is_Some (pulls (w s') !! i)
  <-> mixedKinds i events = true.
Proof.
  intros H. rewrite (ingest_issues _ _ _ i H), (ingest_pulls _ _ _ i H).
  unfold mixedKinds. rewrite andb_true_iff. cbn.
  rewrite !lookup_empty. unfold is_Some. split.
  - intros [[[x Hx]|Hi] [[y Hy]|Hp]]; try discriminate. auto.
  - intros [Hi Hp]. auto.
Qed.

(** *** Upserting a work item *)

Lemma upsert_present (x : workItem) (s : state) :
  is_Some (targetMap (itemInPulls x) (w s) !! itemNumber x) ->
  upsert llmCall x s = Some (tt, s).
Proof.
  unfold targetMap, itemInPulls, itemNumber. intros [item Hitem].
  destruct x as [issue|pr]; run; reflexivity.
Qed.

Lemma upsert_absent (x : workItem) (s : state) :
  targetMap (itemInPulls x) (w s) !! itemNumber x = None ->
  exists s' item,
    upsert llmCall x s = Some (tt, s') /\
    targetMap (itemInPulls x) (w s') !! itemNumber x = Some item /\
    targetMap (negb (itemInPulls x)) (w s') = targetMap (negb (itemInPulls x)) (w s) /\
    eventId item = itemNumber x /\
    url item = match x with IssueItem a => Issue_HTMLURL a | PullItem a => PR_HTMLURL a end /\
    title item = match x with IssueItem a => Issue_Title a | PullItem a => PR_Title a end /\
    author item = String.eqb
                    match x with IssueItem a => Issue_UserLogin a | PullItem a => PR_UserLogin a end
                    (user (w s)).
Proof.
  unfold targetMap, itemInPulls, itemNumber. intros Hnone.
  destruct x as [issue|pr]; run;
    (do 2 eexists; split; [reflexivity|]; cbn;
     rewrite lookup_insert_eq; repeat split; reflexivity).
Qed.

(** C1: if the events that refer to an id agree on its kind (no event
    routes it to [issues] while another routes it to [pulls]), then after
    ingestion the id is in at most one of the two maps. *)
Theorem C1_one_map_per_id_when_kinds_agree
    (login : string) (events : list Event) (i : Z) :
  mixedKinds i events = false ->
  exists s',
    ingest llmCall events (initialState login) = Some (tt, s') /\
    ~ (is_Some (issues (w s') !! i) /\ is_Some (pulls (w s') !! i)).
Proof.
  intros Hmix. destruct (ingest_total events (initialState login)) as [s' H].
  exists s'. split; [exact H|].
  rewrite (ingest_both_maps login events s' i H). congruence.
Qed.

(** C4: an upsert is a no-op when the id is already present in the map the
    upsert writes to ([pulls] for a pull request and for an issue flagged
    as one, [issues] otherwise); so of two upserts with the same id into
    the same map the second changes nothing, and the record stored by the
    first (number, url, title, author flag) stays. *)
Theorem C4_upsert_first_write_wins_per_map (x y : workItem) (s : state) :
  itemNumber y = itemNumber x ->
  itemInPulls y = itemInPulls x ->
  (is_Some (targetMap (itemInPulls x) (w s) !! itemNumber x) ->
   upsert llmCall x s = Some (tt, s)) /\
  exists s1,
    upsert llmCall x s = Some (tt, s1) /\
    upsert llmCall y s1 = Some (tt, s1) /\
    (targetMap (itemInPulls x) (w s) !! itemNumber x = None ->
     exists item,
       targetMap (itemInPulls x) (w s1) !! itemNumber x = Some item /\
       url item = match x with IssueItem a => Issue_HTMLURL a | PullItem a => PR_HTMLURL a end /\
       title item = match x with IssueItem a => Issue_Title a | PullItem a => PR_Title a end /\
       author item = String.eqb
                       match x with IssueItem a => Issue_UserLogin a | PullItem a => PR_UserLogin a end
                       (user (w s))).
Proof.
  intros Hn Hp. split; [apply upsert_present|].
  destruct (targetMap (itemInPulls x) (w s) !! itemNumber x) as [item|] eqn:E.
  - exists s. split; [apply upsert_present; rewrite E; eauto|].
    split; [apply upsert_present; rewrite Hn, Hp, E; eauto|]. discriminate.
  - destruct (upsert_absent x s E) as (s1 & item & H1 & H2 & _ & _ & H3 & H4 & H5).
    exists s1. split; [exact H1|].
    split; [apply upsert_present; rewrite Hn, Hp, H2; eauto|].
    intros _. exists item. auto.
Qed.

(** C5: a pull request event stores an action of object kind pull request
    whose verb is "merged" for the action "closed" on a merged pull
    request, "closed" for "closed" on one that is not merged, and the
    event's own action string otherwise; the pull request is in [pulls]. *)
Theorem C5_closed_pull_request_verb
    (t : Time) (repo act : string) (pr : PullRequest) (s : state) :
  exists s' a,
    handleEvent llmCall (mkEvent t repo (PullRequestEvent act pr)) s = Some (tt, s') /\
    actionsOf (w s') (PR_Number pr) = (actionsOf (w s) (PR_Number pr) ++ [a])%list /\
    a_object a = ObjectPR /\
    is_Some (pulls (w s') !! PR_Number pr) /\
    (act = "closed" -> PR_Merged pr = true -> a_action a = "merged") /\
    (act = "closed" -> PR_Merged pr = false -> a_action a = "closed") /\
    (act <> "closed" -> a_action a = act).
Proof.
  set (e := mkEvent t repo (PullRequestEvent act pr)).
  destruct (handleEvent_total e s) as [s' H].
  assert (Hr : refersTo (PR_Number pr) e = true)
    by (unfold refersTo; cbn; apply Z.eqb_refl).
  destruct (handleEvent_actions_same e s s' _ H Hr) as [content Ha].
  exists s', (mkAction (eventVerb e) (eventObject e) content).
  split; [exact H|]. split; [exact Ha|]. split; [reflexivity|].
  split.
  { rewrite (handleEvent_pulls e s s' _ H). right.
    unfold toPulls. now rewrite Hr. }
  unfold eventVerb. cbn.
  destruct (String.eqb_spec act "closed") as [->|Hne].
  - repeat split; intros; try congruence; destruct (PR_Merged pr); congruence.
  - repeat split; intros; congruence.
Qed.

Lemma ingest_app (events more : list Event) (s : state) :
  ingest llmCall (events ++ more)%list s
  = match ingest llmCall events s with
    | Some (_, s1) => ingest llmCall more s1
    | None => None
    end.
Proof.
  revert s. induction events as [|e events IH]; intros s; [reflexivity|].
  cbn [app ingest]. unfold bind.
  destruct (handleEvent llmCall e s) as [[[] s1]|]; [apply IH|reflexivity].
Qed.

(** The action that a recorded event appends, content included: the
    content is what the chat model answers in the last call of the event. *)
Lemma handleEvent_appends (e : Event) (s s' : state) (i : Z) :
  handleEvent llmCall e s = Some (tt, s') ->
  refersTo i e = true ->
  actionsOf (w s') i
  = (actionsOf (w s) i
       ++ [mkAction (eventVerb e) (eventObject e)
             match llmCall (pred (llmCalls s')) rewriteRole
                     (rewriteInstr (eventBody e)) with
             | Some content => content
             | None => ""
             end])%list.
Proof.
  unfold refersTo, eventNumber, eventVerb, eventObject, eventBody,
    rewriteRole, rewriteInstr.
  intros H Hr.
  run; try discriminate; apply Z.eqb_eq in Hr; subst;
    timeline; (case_decide; [|contradiction]); cbn [pred llmCalls];
    first [ reflexivity
          | match goal with
            | Hc : llmCall _ _ _ = _ |- _ => now rewrite Hc
            end ].
Qed.

(** Further events only append to a timeline. *)
Lemma ingest_extends (events : list Event) (s s' : state) (i : Z) :
  ingest llmCall events s = Some (tt, s') ->
  exists rest,
    actionsOf (w s') i = (actionsOf (w s) i ++ rest)%list /\
    length rest = length (List.filter (refersTo i) events).
Proof.
  revert s. induction events as [|e events IH]; intros s H.
  - cbn in H. injection H as <-. exists []. now rewrite app_nil_r.
  - apply ingest_cons in H as (s1 & H1 & H2).
    destruct (IH s1 H2) as (rest & Hrest & Hlen).
    cbn [List.filter]. destruct (refersTo i e) eqn:Hr.
    + destruct (handleEvent_actions_same e s s1 i H1 Hr) as [c Hc].
      exists (mkAction (eventVerb e) (eventObject e) c :: rest).
      rewrite Hrest, Hc, <- app_assoc. cbn [app length]. now rewrite Hlen.
    + rewrite (handleEvent_actions_other e s s1 i H1 Hr) in Hrest.
      now exists rest.
Qed.

(** C6: after ingesting any sequence of events into the empty ledger, the
    timeline of every id has one action per classified event that refers
    to the id, with the verbs and object kinds of those events in arrival
    order, and it is non-empty only if the id is in [issues] or [pulls].
    The engine never reorders: the action of an event that refers to the id
    is stored right after the timeline as it stood when the event arrived,
    which holds one action per earlier event, and is followed by the
    actions of the later events; its content is the summary that the event
    obtained from the chat model. *)
Theorem C6_timeline_follows_the_events
    (login : string) (events : list Event) (i : Z) :
  exists s',
    ingest llmCall events (initialState login) = Some (tt, s') /\
    length (actionsOf (w s') i) = length (List.filter (refersTo i) events) /\
    map verbObject (actionsOf (w s') i)
    = map eventVerbObject (List.filter (refersTo i) events) /\
    (actionsOf (w s') i <> [] ->
     is_Some (issues (w s') !! i) \/ is_Some (pulls (w s') !! i)) /\
    (forall (earlier later : list Event) (e : Event),
       events = (earlier ++ e :: later)%list ->
       refersTo i e = true ->
       exists s0 s1 rest,
         ingest llmCall earlier (initialState login) = Some (tt, s0) /\
         handleEvent llmCall e s0 = Some (tt, s1) /\
         length (actionsOf (w s0) i)
         = length (List.filter (refersTo i) earlier) /\
         length rest = length (List.filter (refersTo i) later) /\
         actionsOf (w s') i
         = (actionsOf (w s0) i
              ++ mkAction (eventVerb e) (eventObject e)
                   match llmCall (pred (llmCalls s1)) rewriteRole
                           (rewriteInstr (eventBody e)) with
                   | Some content => content
                   | None => ""
                   end
              :: rest)%list).
Proof.
  destruct (ingest_total events (initialState login)) as [s' H].
  exists s'. split; [exact H|].
  pose proof (ingest_actions events _ s' i H) as Ha. cbn in Ha.
  split; [|split; [exact Ha|split]].
  - rewrite <- (length_map verbObject), Ha. apply length_map.
  - apply (ingest_timelines events _ s' H).
    intros j Hj. exfalso. apply Hj. reflexivity.
  - intros earlier later e -> Hr.
    destruct (ingest_total earlier (initialState login)) as [s0 H0].
    destruct (handleEvent_total e s0) as [s1 H1].
    rewrite ingest_app, H0 in H. cbn [ingest] in H. unfold bind in H.
    rewrite H1 in H.
    destruct (ingest_extends later s1 s' i H) as (rest & Hrest & Hlen).
    exists s0, s1, rest. split; [exact H0|]. split; [exact H1|].
    split.
    { pose proof (ingest_actions earlier _ s0 i H0) as Ha0. cbn in Ha0.
      rewrite <- (length_map verbObject), Ha0. apply length_map. }
    split; [exact Hlen|].
    rewrite Hrest, (handleEvent_appends e s0 s1 i H1 Hr), <- app_assoc.
    reflexivity.
Qed.

(** C7: an issue comment event records its work item in [issues], or in
    [pulls] when the issue is flagged as a pull request, leaves the other
    map as it was, and stores an action of object kind issue comment
    whose verb is the event's action string. *)
Theorem C7_issue_comment_routing
    (t : Time) (repo act : string) (issue : Issue) (body : string) (s : state) :
  exists s' a,
    handleEvent llmCall (mkEvent t repo (IssueCommentEvent act issue body)) s
    = Some (tt, s') /\
    is_Some (targetMap (Issue_IsPullRequest issue) (w s') !! Issue_Number issue) /\
    targetMap (negb (Issue_IsPullRequest issue)) (w s')
    = targetMap (negb (Issue_IsPullRequest issue)) (w s) /\
    actionsOf (w s') (Issue_Number issue)
    = (actionsOf (w s) (Issue_Number issue) ++ [a])%list /\
    a_action a = act /\
    a_object a = ObjectIssueComment.
Proof.
  set (e := mkEvent t repo (IssueCommentEvent act issue body)).
  destruct (handleEvent_total e s) as [s' H].
  assert (Hr : refersTo (Issue_Number issue) e = true)
    by (unfold refersTo; cbn; apply Z.eqb_refl).
  destruct (handleEvent_actions_same e s s' _ H Hr) as [content Ha].
  exists s', (mkAction (eventVerb e) (eventObject e) content).
  split; [exact H|].
  split.
  { unfold targetMap. destruct (Issue_IsPullRequest issue) eqn:Hf.
    - rewrite (handleEvent_pulls e s s' _ H). right.
      unfold toPulls. rewrite Hr. cbn. exact Hf.
    - rewrite (handleEvent_issues e s s' _ H). right.
      unfold toIssues. rewrite Hr. cbn. now rewrite Hf. }
  split.
  { clear Ha Hr. subst e. unfold targetMap.
    run; reflexivity. }
  split; [exact Ha|]. split; reflexivity.
Qed.

End LedgerFacts.

(** ** Summary driver *)

Section ReportFacts.

Variable llmCall : nat -> string -> string -> option string.

Lemma append_assoc (a b c : string) : (a ++ b) ++ c = a ++ (b ++ c).
Proof.
  induction a as [|x a IH]; [reflexivity|].
  change (String x ((a ++ b) ++ c) = String x (a ++ (b ++ c))).
  now rewrite IH.
Qed.

Lemma append_nil_r (a : string) : a ++ "" = a.
Proof.
  induction a as [|x a IH]; [reflexivity|].
  change (String x (a ++ "") = String x a). now rewrite IH.
Qed.

(** A failed call to the chat model yields the empty string; whatever the
    answer, the ledger stays as it is and the call is counted. *)
Lemma executeAI_run (role instr : string) (s : state) :
  executeAI llmCall role instr s
  = Some (match llmCall (llmCalls s) role instr with
          | Some content => content
          | None => ""
          end, mkState (w s) (S (llmCalls s))).
Proof. unfold executeAI. destruct (llmCall _ _ _); reflexivity. Qed.

Lemma actionSummary_run (i : Z) (meta : metadata) (s : state) :
  getIssueOrPR (w s) i = Some meta ->
  actionSummary llmCall i s
  = Some (match llmCall (llmCalls s) actionSummaryString
                  (actionSummaryInstr (w s) meta i) with
          | Some content => content
          | None => ""
          end, mkState (w s) (S (llmCalls s))).
Proof.
  intros Hm. unfold actionSummary, bind, getWork. rewrite Hm.
  apply executeAI_run.
Qed.

(** A report loop over items that all have a record never panics: it
    appends one entry per item and makes one call per item. *)
Lemma reportLoop_run (kind : string) (items : list metadata) :
  forall (report : string) (wk : work) (n : nat),
  (forall item, In item items -> is_Some (getIssueOrPR wk (eventId item))) ->
  reportLoop llmCall kind items report (mkState wk n)
  = Some (report ++ reportEntries llmCall kind wk n items,
          mkState wk (n + length items)).
Proof.
  induction items as [|item rest IH]; intros report wk n Hin.
  - cbn. now rewrite append_nil_r, Nat.add_0_r.
  - destruct (Hin item (or_introl eq_refl)) as [meta Hm].
    cbn [reportLoop]. unfold bind.
    rewrite (actionSummary_run _ meta) by exact Hm. cbn [w llmCalls].
    rewrite IH by (intros; apply Hin; now right).
    cbn [reportEntries length]. unfold narrative, reportEntry. rewrite Hm.
    rewrite !append_assoc.
    now replace (S n + length rest)%nat with (n + S (length rest))%nat by lia.
Qed.

Lemma visited_has_record (range : gmap Z metadata -> list metadata)
    (m : gmap Z metadata) (item : metadata) :
  visitsAll range -> keyed m -> In item (range m) -> m !! eventId item = Some item.
Proof.
  intros Hr Hk Hin.
  apply (Permutation_in _ (Hr m)) in Hin.
  apply in_map_iff in Hin as [[k x] [E Hin]]. cbn in E. subst x.
  apply list_elem_of_In, elem_of_map_to_list in Hin.
  now rewrite (Hk k item Hin).
Qed.

Lemma createReport_run (range : gmap Z metadata -> list metadata) (s : state) :
  visitsAll range -> keyed (issues (w s)) -> keyed (pulls (w s)) ->
  createReport llmCall range s
  = Some (reportText llmCall (w s) (llmCalls s)
            (range (issues (w s))) (range (pulls (w s))),
          mkState (w s)
            (llmCalls s + length (range (issues (w s)))
               + length (range (pulls (w s))))).
Proof.
  intros Hr Ki Kp. destruct s as [wk n]. cbn [w llmCalls] in *.
  unfold createReport, bind, getWork. cbn [w].
  rewrite reportLoop_run.
  2:{ intros item Hin. unfold getIssueOrPR.
      rewrite (visited_has_record range _ item Hr Ki Hin). eauto. }
  cbn [w]. rewrite reportLoop_run.
  2:{ intros item Hin. unfold getIssueOrPR.
      rewrite (visited_has_record range _ item Hr Kp Hin).
      destruct (issues wk !! eventId item); eauto. }
  unfold reportText. cbn ["++"]. now rewrite !append_assoc.
Qed.

(** C9: whatever calls to the chat model fail, the run goes through: after
    any ingestion the report is produced with an entry for every work
    item and the timecard call returns; the ledger is the same afterwards;
    a failed call returns the empty string, and so the narrative of the
    item whose call failed is empty while the loop goes on to the next
    item. *)
Theorem C9_summarizer_failure_is_absorbed
    (range : gmap Z metadata -> list metadata)
    (login summaryType : string) (events : list Event) :
  visitsAll range ->
  exists s out,
    ingest llmCall events (initialState login) = Some (tt, s) /\
    (forall role instr s0,
       llmCall (llmCalls s0) role instr = None ->
       executeAI llmCall role instr s0 = Some ("", mkState (w s0) (S (llmCalls s0)))) /\
    (forall item rest kind report n,
       In item (range (issues (w s))) \/ In item (range (pulls (w s))) ->
       narrative llmCall (w s) n item = "" ->
       reportLoop llmCall kind (item :: rest) report (mkState (w s) n)
       = reportLoop llmCall kind rest
           (report ++ reportEntry kind item "") (mkState (w s) (S n))) /\
    (forall item n meta,
       getIssueOrPR (w s) (eventId item) = Some meta ->
       llmCall n actionSummaryString
         (actionSummaryInstr (w s) meta (eventId item)) = None ->
       narrative llmCall (w s) n item = "") /\
    createReport llmCall range s
    = Some (reportText llmCall (w s) (llmCalls s)
              (range (issues (w s))) (range (pulls (w s))),
            mkState (w s)
              (llmCalls s + length (range (issues (w s)))
                 + length (range (pulls (w s))))) /\
    createTimecard llmCall range summaryType s
    = Some (out, mkState (w s)
                   (S (llmCalls s + length (range (issues (w s)))
                         + length (range (pulls (w s)))))).
Proof.
  intros Hr.
  destruct (ingest_total llmCall events (initialState login)) as [s Hs].
  destruct (ingest_keyed llmCall events _ s Hs) as [Ki Kp];
    [intros k item; cbn; now rewrite lookup_empty..|].
  pose proof (createReport_run range s Hr Ki Kp) as Hrep.
  eexists s, _. split; [exact Hs|].
  split.
  { intros role instr s0 Hnone. rewrite executeAI_run. now rewrite Hnone. }
  split.
  { intros item rest kind report n Hin Hnar.
    assert (Hsome : is_Some (getIssueOrPR (w s) (eventId item))).
    { unfold getIssueOrPR. destruct Hin as [Hin|Hin].
      - rewrite (visited_has_record range _ item Hr Ki Hin). eauto.
      - rewrite (visited_has_record range _ item Hr Kp Hin).
        destruct (issues (w s) !! eventId item); eauto. }
    destruct Hsome as [meta Hm].
    cbn [reportLoop]. unfold bind.
    rewrite (actionSummary_run _ meta) by exact Hm. cbn [w llmCalls].
    unfold narrative in Hnar. rewrite Hm in Hnar. rewrite Hnar.
    cbv zeta. unfold reportEntry. now rewrite !append_assoc. }
  split.
  { intros item n meta Hm Hnone. unfold narrative. now rewrite Hm, Hnone. }
  split; [exact Hrep|].
  unfold createTimecard, bind. rewrite Hrep.
  unfold timecardSummary. rewrite executeAI_run. cbn [w llmCalls].
  reflexivity.
Qed.

End ReportFacts.

(** ** Repository filter *)

Import strings.

Lemma toLowerByte_not_upper (c : ascii) : isUpper (toLowerByte c) = false.
Proof. destruct c as [[] [] [] [] [] [] [] []]; reflexivity. Qed.

Lemma ToLower_no_upper (s : string) : hasUpper (ToLower s) = false.
Proof.
  induction s as [|c s IH]; [reflexivity|].
  cbn [ToLower hasUpper]. now rewrite toLowerByte_not_upper, IH.
Qed.

Lemma ToLower_empty (s : string) : ToLower s = "" -> s = "".
Proof. destruct s; [reflexivity|discriminate]. Qed.

(** C10: the owner/repo argument is lowercased before use and an event's
    repository name is compared with it as it is; so when the argument is
    not empty, an event whose repository name has an upper-case letter is
    skipped by the event loop, whatever the argument. *)
Theorem C10_filter_never_matches_upper_case_names
    (arg wantedRepo repoName : string) :
  arg <> "" ->
  wantedRepoOf arg = Some wantedRepo ->
  hasUpper repoName = true ->
  wantedRepo = ToLower arg /\
  skipRepo wantedRepo repoName = true /\
  forall llmCall beginDate event rest s,
    RepoName event = repoName ->
    handlePage llmCall beginDate wantedRepo (event :: rest) s
    = if Before (CreatedAt event) beginDate then Some (tt, s)
      else handlePage llmCall beginDate wantedRepo rest s.
Proof.
  intros Harg Hwanted Hupper.
  unfold wantedRepoOf in Hwanted.
  destruct (String.eqb_spec arg "") as [E|_]; [contradiction|].
  cbn [negb] in Hwanted.
  destruct (Contains (ToLower arg) "/"); [|discriminate].
  injection Hwanted as <-.
  assert (Hskip : skipRepo (ToLower arg) repoName = true).
  { unfold skipRepo. apply andb_true_iff. split; apply negb_true_iff.
    - apply String.eqb_neq. intros E. now apply ToLower_empty in E.
    - apply String.eqb_neq. intros ->.
      rewrite ToLower_no_upper in Hupper. discriminate. }
  split; [reflexivity|]. split; [exact Hskip|].
  intros llmCall beginDate event rest s Hname. subst repoName.
  cbn [handlePage]. cbv zeta.
  destruct (Before (CreatedAt event) beginDate); [reflexivity|].
  now rewrite Hskip.
Qed.

(** ** Concrete runs *)

Import samples.

(** The ledger after an issue is opened and commented on by its author. *)
Example issue_then_comment :
  exists s,
    ingest echoModel [issue10opened; pushed; issue10commented] (initialState "alice")
    = Some (tt, s) /\
    author <$> issues (w s) !! 10 = Some true /\
    map verbObject (actionsOf (w s) 10)
    = [("opened", ObjectIssue); ("created", ObjectIssueComment)].
Proof.
  exists (after (ingest echoModel [issue10opened; pushed; issue10commented])
                (initialState "alice")).
  repeat split; vm_compute; reflexivity.
Qed.

(** A closed and merged pull request. *)
Example merged_pull_request :
  exists s,
    ingest echoModel [pull42closed] (initialState "alice") = Some (tt, s) /\
    map a_action (actionsOf (w s) 42) = ["merged"] /\
    is_Some (pulls (w s) !! 42) /\
    issues (w s) !! 42 = None.
Proof.
  exists (after (ingest echoModel [pull42closed]) (initialState "alice")).
  repeat split; try present; vm_compute; reflexivity.
Qed.

(** C1 fails as stated: an issue numbered 5 in one repository and a pull
    request numbered 5 in another put the id 5 into both maps. *)
Lemma C1_id_in_both_maps :
  exists s,
    ingest echoModel [issue5opened; pull5closed] (initialState "alice")
    = Some (tt, s) /\
    is_Some (issues (w s) !! 5) /\ is_Some (pulls (w s) !! 5).
Proof.
  exists (after (ingest echoModel [issue5opened; pull5closed]) (initialState "alice")).
  repeat split; try present; vm_compute; reflexivity.
Qed.

Lemma C1_witness :
  mixedKinds 5 [issue5opened; issue5commented; pull42closed] = false /\
  exists s,
    ingest echoModel [issue5opened; issue5commented; pull42closed]
      (initialState "alice") = Some (tt, s) /\
    ~ (is_Some (issues (w s) !! 5) /\ is_Some (pulls (w s) !! 5)).
Proof.
  split; [reflexivity|].
  apply (C1_one_map_per_id_when_kinds_agree echoModel "alice"
           [issue5opened; issue5commented; pull42closed] 5).
  reflexivity.
Defined.

(** C4 fails as stated: with 5 already in [pulls], upserting the issue 5 is
    not a no-op; it adds a record to [issues], and looking 5 up then gives
    another title and author flag than before. *)
Lemma C4_upsert_into_the_other_map :
  exists s0 s1,
    upsert echoModel (PullItem pull5) (initialState "alice") = Some (tt, s0) /\
    is_Some (pulls (w s0) !! 5) /\
    upsert echoModel (IssueItem issue5) s0 = Some (tt, s1) /\
    s1 <> s0 /\
    title <$> getIssueOrPR (w s0) 5 = Some "Add a cache" /\
    title <$> getIssueOrPR (w s1) 5 = Some "Crash on start" /\
    author <$> getIssueOrPR (w s0) 5 = Some false /\
    author <$> getIssueOrPR (w s1) 5 = Some true.
Proof.
  set (s0 := after (upsert echoModel (PullItem pull5)) (initialState "alice")).
  exists s0, (after (upsert echoModel (IssueItem issue5)) s0).
  repeat split; try present; try (vm_compute; reflexivity).
  intros E. apply (f_equal llmCalls) in E. vm_compute in E. discriminate E.
Qed.

Lemma C4_witness :
  itemNumber (IssueItem issue5edited) = itemNumber (IssueItem issue5) /\
  itemInPulls (IssueItem issue5edited) = itemInPulls (IssueItem issue5) /\
  exists s1,
    upsert echoModel (IssueItem issue5) (initialState "alice") = Some (tt, s1) /\
    upsert echoModel (IssueItem issue5edited) s1 = Some (tt, s1) /\
    title <$> issues (w s1) !! 5 = Some "Crash on start".
Proof.
  split; [reflexivity|]. split; [reflexivity|].
  destruct (C4_upsert_first_write_wins_per_map echoModel
              (IssueItem issue5) (IssueItem issue5edited) (initialState "alice")
              eq_refl eq_refl) as [_ [s1 [H1 [H2 H3]]]].
  exists s1. split; [exact H1|]. split; [exact H2|].
  destruct (H3 eq_refl) as [item [Hi [_ [Ht _]]]].
  cbn in Hi, Ht. now rewrite Hi, <- Ht.
Defined.

(** C7 fails as stated: a comment on pull request 7 arrives as an issue
    comment event whose issue is flagged as a pull request, and its record
    goes to [pulls], not to [issues]. *)
Lemma C7_comment_on_pull_request :
  exists s,
    handleEvent echoModel pull7commented (initialState "alice") = Some (tt, s) /\
    issues (w s) !! 7 = None /\
    is_Some (pulls (w s) !! 7).
Proof.
  exists (after (handleEvent echoModel pull7commented) (initialState "alice")).
  repeat split; try present; vm_compute; reflexivity.
Qed.

Lemma C9_witness :
  visitsAll listOrder /\
  exists s out,
    ingest silentModel [issue5opened; pull42closed] (initialState "alice")
    = Some (tt, s) /\
    createTimecard silentModel listOrder "executive" s
    = Some (out, mkState (w s) (S (llmCalls s + 1 + 1))).
Proof.
  assert (Hv : visitsAll listOrder) by (intros m; reflexivity).
  split; [exact Hv|].
  destruct (C9_summarizer_failure_is_absorbed silentModel listOrder
              "alice" "executive" [issue5opened; pull42closed] Hv)
    as (s & out & Hs & _ & _ & _ & _ & Ht).
  exists s, out. split; [exact Hs|].
  rewrite Ht. injection Hs as <-. reflexivity.
Defined.

(** With a chat model that never answers, every narrative of the report is
    empty and the report still lists both work items. *)
Example report_without_answers :
  exists s,
    ingest silentModel [issue5opened; pull42closed] (initialState "alice")
    = Some (tt, s) /\
    fst <$> createReport silentModel listOrder s
    = Some (fmt.nl ++ "Issues:" ++ fmt.nl ++ fmt.nl
            ++ "Issue: #5 (https://github.com/o/r/issues/5) Crash on start" ++ fmt.nl
            ++ "Description: " ++ fmt.nl
            ++ fmt.nl ++ "Pulls:" ++ fmt.nl ++ fmt.nl
            ++ "PR: #42 (https://github.com/o/r/pull/42) Release" ++ fmt.nl
            ++ "Description: " ++ fmt.nl).
Proof.
  exists (after (ingest silentModel [issue5opened; pull42closed])
                (initialState "alice")).
  split; vm_compute; reflexivity.
Qed.

Lemma C10_witness :
  "Owner/Repo" <> "" /\
  wantedRepoOf "Owner/Repo" = Some "owner/repo" /\
  hasUpper "Owner/Repo" = true /\
  skipRepo "owner/repo" "Owner/Repo" = true.
Proof.
  assert (Hne : "Owner/Repo" <> "") by discriminate.
  split; [exact Hne|]. split; [reflexivity|]. split; [reflexivity|].
  exact (proj1 (proj2 (C10_filter_never_matches_upper_case_names
                         "Owner/Repo" "owner/repo" "Owner/Repo"
                         Hne eq_refl eq_refl))).
Defined.

(** * Further properties of the program *)

(** ** The event loop *)

Section LoopFacts.

Variable llmCall : nat -> string -> string -> option string.

Lemma handlePage_ingest
    (beginDate : Time) (wantedRepo : string) (ghEvents : list Event) (s : state) :
  handlePage llmCall beginDate wantedRepo ghEvents s
  = ingest llmCall (handled beginDate wantedRepo ghEvents) s.
Proof.
  unfold handled. revert s.
  induction ghEvents as [|event rest IH]; intros s; [reflexivity|].
  cbn [handlePage reached]. cbv zeta.
  destruct (Before (CreatedAt event) beginDate); [reflexivity|].
  cbn [List.filter].
  destruct (skipRepo wantedRepo (RepoName event)); cbn [negb].
  - apply IH.
  - cbn [ingest]. unfold bind.
    destruct (handleEvent llmCall event s) as [[[] s1]|]; [apply IH|reflexivity].
Qed.

Lemma handlePages_ingest
    (beginDate : Time) (wantedRepo : string) (pages : list (list Event))
    (s : state) :
  handlePages llmCall beginDate wantedRepo pages s
  = ingest llmCall (concat (map (handled beginDate wantedRepo) pages)) s.
Proof.
  revert s. induction pages as [|ghEvents rest IH]; intros s; [reflexivity|].
  cbn [handlePages map concat]. unfold bind.
  rewrite handlePage_ingest, ingest_app.
  destruct (ingest llmCall (handled beginDate wantedRepo ghEvents) s)
    as [[[] s1]|]; [apply IH|reflexivity].
Qed.

Lemma reached_older (beginDate : Time) (front back : list Event) (older : Event) :
  Before (CreatedAt older) beginDate = true ->
  reached beginDate (front ++ older :: back)%list = reached beginDate front.
Proof.
  intros Hold. induction front as [|e front IH]; cbn [app reached].
  - now rewrite Hold.
  - destruct (Before (CreatedAt e) beginDate); [reflexivity|now rewrite IH].
Qed.

(** The loop over a page hands to [handleEvent], in order, the events that
    come before the first event older than the begin date and that pass the
    repository filter. *)
Theorem handlePage_handles_the_reached_events
    (beginDate : Time) (wantedRepo : string) (ghEvents : list Event) (s : state) :
  handlePage llmCall beginDate wantedRepo ghEvents s
  = ingest llmCall (handled beginDate wantedRepo ghEvents) s.
Proof. apply handlePage_ingest. Qed.

(** An event older than the begin date ends the loop over its page: it and
    every event after it in the page are left out, also those that are not
    older than the begin date. *)
Theorem handlePage_stops_at_an_older_event
    (beginDate : Time) (wantedRepo : string) (front back : list Event)
    (older : Event) (s : state) :
  Before (CreatedAt older) beginDate = true ->
  handlePage llmCall beginDate wantedRepo (front ++ older :: back)%list s
  = handlePage llmCall beginDate wantedRepo front s.
Proof.
  intros Hold. rewrite !handlePage_ingest. unfold handled.
  now rewrite (reached_older beginDate front back older Hold).
Qed.

(** An event older than the begin date ends the loop over its own page
    only: the loop over the pages goes on with the next page, whose events
    are handled again up to that page's first older event. *)
Theorem handlePages_cutoff_is_per_page
    (beginDate : Time) (wantedRepo : string) (pages : list (list Event))
    (s : state) :
  handlePages llmCall beginDate wantedRepo pages s
  = ingest llmCall (concat (map (handled beginDate wantedRepo) pages)) s.
Proof. apply handlePages_ingest. Qed.

(** Events of the kinds that [handleEvent] does not record can be dropped
    from a sequence: they change neither the ledger nor the number of calls
    to the chat model. *)
Theorem ingest_skips_unrecorded_kinds (events : list Event) (s : state) :
  ingest llmCall events s = ingest llmCall (List.filter classified events) s.
Proof.
  revert s. induction events as [|e events IH]; intros s; [reflexivity|].
  cbn [List.filter]. destruct (classified e) eqn:Hc.
  - cbn [ingest]. unfold bind.
    destruct (handleEvent llmCall e s) as [[[] s1]|]; [apply IH|reflexivity].
  - cbn [ingest]. unfold bind.
    assert (He : handleEvent llmCall e s = Some (tt, s)).
    { unfold classified, eventNumber in Hc. unfold handleEvent.
      destruct (ParsePayload e); try discriminate; reflexivity. }
    rewrite He. apply IH.
Qed.

End LoopFacts.

(** ** The ledger over a whole run *)

Section RunFacts.

Variable llmCall : nat -> string -> string -> option string.

(** *** Calls to the chat model *)

Lemma handleEvent_calls (e : Event) (s s' : state) :
  handleEvent llmCall e s = Some (tt, s') ->
  (llmCalls s' + size (issues (w s)) + size (pulls (w s))
   = llmCalls s + size (issues (w s')) + size (pulls (w s'))
     + length (List.filter classified [e]))%nat.
Proof.
  unfold classified, eventNumber. cbn [List.filter]. intros H.
  run; cbn [length w issues pulls llmCalls];
    rewrite ?map_size_insert_None by assumption; lia.
Qed.

Lemma ingest_calls (events : list Event) (s s' : state) :
  ingest llmCall events s = Some (tt, s') ->
  (llmCalls s' + size (issues (w s)) + size (pulls (w s))
   = llmCalls s + size (issues (w s')) + size (pulls (w s'))
     + length (List.filter classified events))%nat.
Proof.
  revert s. induction events as [|e events IH]; intros s H.
  - cbn in H. injection H as <-. cbn. lia.
  - apply ingest_cons in H as (s1 & H1 & H2).
    pose proof (handleEvent_calls e s s1 H1) as C1.
    pose proof (IH s1 H2) as C2.
    cbn [List.filter] in *. destruct (classified e); cbn [length] in *; lia.
Qed.

(** Ingesting events into the empty ledger costs one call to the chat model
    per recorded event, for the content of its action, and one more per
    record stored in [issues] or [pulls], for its description. *)
Theorem ingest_calls_from_empty (login : string) (events : list Event) :
  exists s,
    ingest llmCall events (initialState login) = Some (tt, s) /\
    llmCalls s
    = (length (List.filter classified events)
       + size (issues (w s)) + size (pulls (w s)))%nat.
Proof.
  destruct (ingest_total llmCall events (initialState login)) as [s H].
  exists s. split; [exact H|].
  pose proof (ingest_calls events _ s H) as C. cbn in C.
  rewrite !map_size_empty in C. lia.
Qed.

(** *** Records and timelines *)

Lemma toIssues_toPulls (i : Z) (e : Event) :
  toIssues i e || toPulls i e = refersTo i e.
Proof.
  unfold toIssues, toPulls.
  destruct (refersTo i e), (eventInPulls e); reflexivity.
Qed.

Lemma existsb_routes (i : Z) (events : list Event) :
  existsb (toIssues i) events || existsb (toPulls i) events
  = existsb (refersTo i) events.
Proof.
  induction events as [|e events IH]; [reflexivity|].
  cbn [existsb]. rewrite <- IH, <- (toIssues_toPulls i e).
  destruct (toIssues i e), (toPulls i e), (existsb (toIssues i) events),
    (existsb (toPulls i) events); reflexivity.
Qed.

Lemma filter_nil_existsb (i : Z) (events : list Event) :
  List.filter (refersTo i) events = [] <-> existsb (refersTo i) events = false.
Proof.
  induction events as [|e events IH]; [easy|].
  cbn [List.filter existsb]. destruct (refersTo i e); cbn; [easy|exact IH].
Qed.

Lemma getIssueOrPR_is_Some (wk : work) (i : Z) :
  is_Some (getIssueOrPR wk i)
  <-> is_Some (issues wk !! i) \/ is_Some (pulls wk !! i).
Proof.
  unfold getIssueOrPR.
  destruct (issues wk !! i), (pulls wk !! i); unfold is_Some; split;
    try (intros [x Hx]; discriminate); eauto;
    intros [[x Hx]|[x Hx]]; discriminate.
Qed.

(** After ingesting events into the empty ledger, looking an id up finds a
    record exactly when some recorded event refers to the id, and exactly
    then the timeline of the id is not empty: no record is without action
    and no action without record. *)
Theorem ingest_records_match_timelines
    (login : string) (events : list Event) (i : Z) :
  exists s,
    ingest llmCall events (initialState login) = Some (tt, s) /\
    (is_Some (getIssueOrPR (w s) i) <-> existsb (refersTo i) events = true) /\
    (getAction (w s) i <> [] <-> existsb (refersTo i) events = true) /\
    (getIssue (w s) i = None -> getPR (w s) i = None -> getAction (w s) i = []).
Proof.
  destruct (ingest_total llmCall events (initialState login)) as [s H].
  exists s. split; [exact H|].
  assert (Hrec : is_Some (getIssueOrPR (w s) i)
                 <-> existsb (refersTo i) events = true).
  { rewrite getIssueOrPR_is_Some.
    rewrite (ingest_issues llmCall events _ s i H),
            (ingest_pulls llmCall events _ s i H).
    cbn. rewrite !lookup_empty, <- existsb_routes, orb_true_iff.
    unfold is_Some. split.
    - intros [[[x Hx]|Hi]|[[x Hx]|Hp]]; try discriminate; auto.
    - intros [Hi|Hp]; auto. }
  assert (Hact : getAction (w s) i <> []
                 <-> existsb (refersTo i) events = true).
  { pose proof (ingest_actions llmCall events _ s i H) as Ha. cbn in Ha.
    change (getAction (w s) i) with (actionsOf (w s) i).
    rewrite <- not_false_iff_true, <- filter_nil_existsb.
    split; intros Hne E; apply Hne.
    - rewrite E in Ha. now destruct (actionsOf (w s) i).
    - rewrite E in Ha. now destruct (List.filter (refersTo i) events). }
  split; [exact Hrec|]. split; [exact Hact|].
  intros Hi Hp. destruct (getAction (w s) i) eqn:E; [reflexivity|].
  exfalso. assert (Hs : is_Some (getIssueOrPR (w s) i)).
  { apply Hrec. apply (proj1 Hact). discriminate. }
  unfold getIssueOrPR, getIssue, getPR in *. rewrite Hi, Hp in Hs.
  destruct Hs as [x Hx]. discriminate.
Qed.

(** Every record that ingestion stores is stored under its own number, in
    [issues] and in [pulls] alike. *)
Theorem ingest_records_are_keyed
    (login : string) (events : list Event) (i : Z) (item : metadata) :
  exists s,
    ingest llmCall events (initialState login) = Some (tt, s) /\
    (getIssue (w s) i = Some item -> eventId item = i) /\
    (getPR (w s) i = Some item -> eventId item = i) /\
    (getIssueOrPR (w s) i = Some item -> eventId item = i).
Proof.
  destruct (ingest_total llmCall events (initialState login)) as [s H].
  exists s. split; [exact H|].
  destruct (ingest_keyed llmCall events _ s H) as [Ki Kp];
    [intros k x; cbn; now rewrite lookup_empty..|].
  unfold getIssue, getPR, getIssueOrPR.
  split; [apply Ki|]. split; [apply Kp|].
  destruct (issues (w s) !! i) eqn:Ei.
  - intros [= <-]. now apply Ki.
  - destruct (pulls (w s) !! i) eqn:Ep; [|discriminate].
    intros [= <-]. now apply Kp.
Qed.

Lemma ingest_keeps (events : list Event) (s s' : state) (i : Z) (item : metadata) :
  ingest llmCall events s = Some (tt, s') ->
  (issues (w s) !! i = Some item -> issues (w s') !! i = Some item) /\
  (pulls (w s) !! i = Some item -> pulls (w s') !! i = Some item).
Proof.
  revert s. induction events as [|e events IH]; intros s H.
  - cbn in H. now injection H as <-.
  - apply ingest_cons in H as (s1 & H1 & H2).
    destruct (handleEvent_keeps llmCall e s s1 i item H1) as [A B].
    destruct (IH s1 H2) as [C D]. split; auto.
Qed.

Lemma ingest_user (events : list Event) (s s' : state) :
  ingest llmCall events s = Some (tt, s') -> user (w s') = user (w s).
Proof.
  revert s. induction events as [|e events IH]; intros s H.
  - cbn in H. now injection H as <-.
  - apply ingest_cons in H as (s1 & H1 & H2).
    rewrite (IH s1 H2). eapply handleEvent_user; eassumption.
Qed.

(** A record already in the ledger outlives any further events: later
    events with the same number neither replace it nor remove it, and the
    tracked user stays the same. *)
Theorem ingest_never_replaces_a_record
    (events : list Event) (s : state) (inPulls : bool) (i : Z) (item : metadata) :
  targetMap inPulls (w s) !! i = Some item ->
  exists s',
    ingest llmCall events s = Some (tt, s') /\
    targetMap inPulls (w s') !! i = Some item /\
    user (w s') = user (w s).
Proof.
  intros Hitem. destruct (ingest_total llmCall events s) as [s' H].
  exists s'. split; [exact H|].
  destruct (ingest_keeps events s s' i item H) as [A B].
  split; [|exact (ingest_user events s s' H)].
  destruct inPulls; cbn in *; auto.
Qed.

Lemma routes_false (i : Z) (e : Event) : routes false i e = toIssues i e.
Proof. unfold routes, toIssues. now destruct (eventInPulls e). Qed.

Lemma routes_true (i : Z) (e : Event) : routes true i e = toPulls i e.
Proof. unfold routes, toPulls. now destruct (eventInPulls e). Qed.

Lemma existsb_same (f g : Event -> bool) (events : list Event) :
  (forall e, f e = g e) -> existsb f events = existsb g events.
Proof.
  intros Hfg. induction events as [|e events IH]; [reflexivity|].
  cbn [existsb]. now rewrite Hfg, IH.
Qed.

Lemma ingest_target (events : list Event) (s s' : state) (inPulls : bool) (i : Z) :
  ingest llmCall events s = Some (tt, s') ->
  targetMap inPulls (w s) !! i = None ->
  existsb (routes inPulls i) events = false ->
  targetMap inPulls (w s') !! i = None.
Proof.
  intros H Hnone Hex. apply eq_None_not_Some. intros Hs.
  destruct inPulls; cbn [targetMap] in *.
  - apply (ingest_pulls llmCall events s s' i H) in Hs as [Hs|Hs].
    + rewrite Hnone in Hs. now destruct Hs.
    + rewrite (existsb_same _ (toPulls i) events (routes_true i)) in Hex. congruence.
  - apply (ingest_issues llmCall events s s' i H) in Hs as [Hs|Hs].
    + rewrite Hnone in Hs. now destruct Hs.
    + rewrite (existsb_same _ (toIssues i) events (routes_false i)) in Hex. congruence.
Qed.

Lemma handleEvent_stores (e : Event) (x : workItem) (s s' : state) :
  eventItem e = Some x ->
  handleEvent llmCall e s = Some (tt, s') ->
  targetMap (itemInPulls x) (w s) !! itemNumber x = None ->
  exists item,
    targetMap (itemInPulls x) (w s') !! itemNumber x = Some item /\
    eventId item = itemNumber x /\
    url item = itemURL x /\
    title item = itemTitle x /\
    author item = String.eqb (itemLogin x) (user (w s)).
Proof.
  unfold eventItem, targetMap. intros Hx H Hnone.
  run; cbn [itemInPulls itemNumber itemURL itemTitle itemLogin] in *;
    simplify_eq/=;
    (eexists; split; [apply lookup_insert_eq|repeat split; reflexivity]).
Qed.

(** The record of a work item is made from the first event that puts it
    into its map: number, url and title are those the event carries, and
    the author flag says whether the login it carries is the tracked user.
    Whatever the later events carry for the same number is not stored. *)
Theorem first_event_decides_the_record
    (login : string) (before later : list Event) (e : Event) (x : workItem) :
  eventItem e = Some x ->
  existsb (routes (itemInPulls x) (itemNumber x)) before = false ->
  exists s item,
    ingest llmCall (before ++ e :: later)%list (initialState login) = Some (tt, s) /\
    targetMap (itemInPulls x) (w s) !! itemNumber x = Some item /\
    eventId item = itemNumber x /\
    url item = itemURL x /\
    title item = itemTitle x /\
    author item = String.eqb (itemLogin x) login.
Proof.
  intros Hx Hfirst.
  destruct (ingest_total llmCall before (initialState login)) as [s1 H1].
  destruct (handleEvent_total llmCall e s1) as [s2 H2].
  destruct (ingest_total llmCall later s2) as [s3 H3].
  assert (Hnone : targetMap (itemInPulls x) (w s1) !! itemNumber x = None).
  { apply (ingest_target before _ s1 _ _ H1); [|exact Hfirst].
    destruct (itemInPulls x); apply lookup_empty. }
  destruct (handleEvent_stores e x s1 s2 Hx H2 Hnone)
    as (item & Hitem & Hid & Hurl & Htitle & Hauthor).
  exists s3, item. split.
  { rewrite ingest_app, H1. cbn [ingest]. unfold bind. now rewrite H2. }
  split.
  { destruct (ingest_keeps later s2 s3 (itemNumber x) item H3) as [A B].
    destruct (itemInPulls x); cbn [targetMap] in *; auto. }
  rewrite Hauthor, (ingest_user before _ s1 H1). auto.
Qed.

(** *** The kinds of events *)

(** An issues event records its work item in [issues], or in [pulls] when
    the issue is flagged as a pull request, leaves the other map as it was,
    and adds an action of object kind issue whose verb is the event's
    action string. *)
Theorem issues_event_routing
    (t : Time) (repo act : string) (issue : Issue) (s : state) :
  exists s' a,
    handleEvent llmCall (mkEvent t repo (IssuesEvent act issue)) s = Some (tt, s') /\
    is_Some (targetMap (Issue_IsPullRequest issue) (w s') !! Issue_Number issue) /\
    targetMap (negb (Issue_IsPullRequest issue)) (w s')
    = targetMap (negb (Issue_IsPullRequest issue)) (w s) /\
    getAction (w s') (Issue_Number issue)
    = (getAction (w s) (Issue_Number issue) ++ [a])%list /\
    a_action a = act /\
    a_object a = "issue".
Proof.
  set (e := mkEvent t repo (IssuesEvent act issue)).
  destruct (handleEvent_total llmCall e s) as [s' H].
  assert (Hr : refersTo (Issue_Number issue) e = true)
    by (unfold refersTo; cbn; apply Z.eqb_refl).
  destruct (handleEvent_actions_same llmCall e s s' _ H Hr) as [content Ha].
  exists s', (mkAction (eventVerb e) (eventObject e) content).
  split; [exact H|]. split.
  { unfold targetMap. destruct (Issue_IsPullRequest issue) eqn:Hf.
    - rewrite (handleEvent_pulls llmCall e s s' _ H). right.
      unfold toPulls. rewrite Hr. cbn. exact Hf.
    - rewrite (handleEvent_issues llmCall e s s' _ H). right.
      unfold toIssues. rewrite Hr. cbn. now rewrite Hf. }
  split.
  { clear Ha Hr. subst e. unfold targetMap. run; reflexivity. }
  split; [exact Ha|]. split; reflexivity.
Qed.

(** A pull request review event and a pull request review comment event
    both record the pull request in [pulls], never touch [issues], and add
    an action of object kind pull request comment whose verb is the event's
    action string. *)
Theorem review_events_routing
    (t : Time) (repo act body : string) (pr : PullRequest) (s : state)
    (isComment : bool) :
  let payload := if isComment
                 then PullRequestReviewCommentEvent act pr body
                 else PullRequestReviewEvent act pr body in
  exists s' a,
    handleEvent llmCall (mkEvent t repo payload) s = Some (tt, s') /\
    is_Some (pulls (w s') !! PR_Number pr) /\
    issues (w s') = issues (w s) /\
    getAction (w s') (PR_Number pr)
    = (getAction (w s) (PR_Number pr) ++ [a])%list /\
    a_action a = act /\
    a_object a = "pull request comment".
Proof.
  intros payload. set (e := mkEvent t repo payload).
  destruct (handleEvent_total llmCall e s) as [s' H].
  assert (Hr : refersTo (PR_Number pr) e = true)
    by (unfold refersTo, eventNumber; subst e payload; destruct isComment;
        cbn; apply Z.eqb_refl).
  destruct (handleEvent_actions_same llmCall e s s' _ H Hr) as [content Ha].
  exists s', (mkAction (eventVerb e) (eventObject e) content).
  split; [exact H|]. split.
  { rewrite (handleEvent_pulls llmCall e s s' _ H). right.
    unfold toPulls. rewrite Hr. subst e payload. now destruct isComment. }
  split.
  { clear Ha Hr. subst e payload. destruct isComment; run; reflexivity. }
  split; [exact Ha|].
  subst e payload. destruct isComment; split; reflexivity.
Qed.

(** The content of the action that a recorded event adds is what the chat
    model answers, in the last call the event makes, to the request to
    rewrite the body the event carries (the issue or pull request body for
    issues and pull request events, the comment or review body for the
    other kinds), and the empty string if that call fails. *)
Theorem action_content_is_the_summary_of_the_body
    (e : Event) (s : state) (i : Z) :
  eventNumber e = Some i ->
  exists s' a,
    handleEvent llmCall e s = Some (tt, s') /\
    last (getAction (w s') i) = Some a /\
    (llmCalls s < llmCalls s')%nat /\
    a_content a
    = match llmCall (pred (llmCalls s')) rewriteRole (rewriteInstr (eventBody e)) with
      | Some content => content
      | None => ""
      end.
Proof.
  unfold eventNumber, eventBody, rewriteRole, rewriteInstr. intros Hn.
  unfold getAction.
  run; do 2 eexists; (split; [reflexivity|]); cbn [w actions llmCalls];
    rewrite lookup_insert_eq, last_snoc; cbn [pred a_content];
    (split; [reflexivity|]); (split; [lia|]);
    match goal with
    | Hc : llmCall _ _ _ = _ |- _ => now rewrite Hc
    end.
Qed.

End RunFacts.

(** ** The summary driver and the whole run *)

Section DriverFacts.

Variable llmCall : nat -> string -> string -> option string.

(** [actionSummary] panics exactly when the id has a record in neither map.
    Otherwise it makes one call to the chat model and leaves the ledger as
    it is; the instruction is built from the record in [issues] when there
    is one, also when [pulls] has a record under the same id. *)
Theorem actionSummary_panics_only_on_unknown_ids (i : Z) (s : state) :
  (actionSummary llmCall i s = None
   <-> getIssue (w s) i = None /\ getPR (w s) i = None) /\
  (forall out s',
     actionSummary llmCall i s = Some (out, s') ->
     w s' = w s /\ llmCalls s' = S (llmCalls s)) /\
  (forall meta,
     getIssue (w s) i = Some meta ->
     actionSummary llmCall i s
     = executeAI llmCall actionSummaryString (actionSummaryInstr (w s) meta i) s).
Proof.
  unfold getIssue, getPR, actionSummary, bind, getWork, getIssueOrPR, panic.
  split; [|split].
  - destruct (issues (w s) !! i), (pulls (w s) !! i);
      rewrite ?executeAI_run; split; intros; try discriminate; try tauto;
      intuition discriminate.
  - intros out s'.
    destruct (issues (w s) !! i), (pulls (w s) !! i);
      rewrite ?executeAI_run; intros [= <- <-]; split; reflexivity.
  - intros meta ->. reflexivity.
Qed.

Lemma range_length (range : gmap Z metadata -> list metadata) (m : gmap Z metadata) :
  visitsAll range -> length (range m) = size m.
Proof.
  intros Hr. rewrite (Permutation_length (Hr m)), length_map.
  apply length_map_to_list.
Qed.

(** From the empty ledger, the event loop followed by the report and the
    timecard never panics, whatever the pages hold and whatever the chat
    model answers.  The ledger it ends with is the one built from the
    handled events, and the run has made one call per recorded event, two
    per stored record (its description and its summary) and one for the
    timecard. *)
Theorem mainRun_never_panics
    (range : gmap Z metadata -> list metadata)
    (login summaryType wantedRepo : string) (beginDate : Time)
    (pages : list (list Event)) :
  visitsAll range ->
  let events := concat (map (handled beginDate wantedRepo) pages) in
  exists s out,
    ingest llmCall events (initialState login) = Some (tt, s) /\
    mainRun llmCall range login summaryType wantedRepo beginDate pages
    = Some (out, mkState (w s)
                   (length (List.filter classified events)
                    + 2 * (size (issues (w s)) + size (pulls (w s))) + 1)).
Proof.
  intros Hr events.
  destruct (ingest_total llmCall events (initialState login)) as [s Hs].
  destruct (ingest_keyed llmCall events _ s Hs) as [Ki Kp];
    [intros k item; cbn; now rewrite lookup_empty..|].
  pose proof (ingest_calls llmCall events _ s Hs) as Hc. cbn in Hc.
  rewrite !map_size_empty in Hc.
  unfold mainRun, bind. rewrite handlePages_ingest.
  fold events. rewrite Hs.
  unfold createTimecard, bind.
  rewrite (createReport_run llmCall range s Hr Ki Kp).
  unfold timecardSummary. rewrite executeAI_run. cbn [w llmCalls].
  rewrite !(range_length range _ Hr).
  eexists s, _. split; [reflexivity|]. do 2 f_equal.
  f_equal. lia.
Qed.

End DriverFacts.

(** ** The arguments of [main] *)

Lemma Contains_slash (s : string) : Contains s "/" = hasSlash s.
Proof.
  induction s as [|c s IH]; [reflexivity|].
  cbn [Contains hasSlash String.prefix]. rewrite IH.
  destruct (ascii_dec "/" c) as [<-|Hne].
  - rewrite Ascii.eqb_refl. now destruct s.
  - destruct (Ascii.eqb_spec c "/") as [->|_]; [contradiction|reflexivity].
Qed.

Lemma toLowerByte_slash (c : ascii) :
  Ascii.eqb (toLowerByte c) "/" = Ascii.eqb c "/".
Proof. destruct c as [[] [] [] [] [] [] [] []]; reflexivity. Qed.

Lemma hasSlash_ToLower (s : string) : hasSlash (ToLower s) = hasSlash s.
Proof.
  induction s as [|c s IH]; [reflexivity|].
  cbn [ToLower hasSlash]. now rewrite toLowerByte_slash, IH.
Qed.

(** The owner/repo argument makes the program exit exactly when it is not
    empty and has no slash; an empty argument is kept as it is (no filter),
    and an argument with a slash is kept in lower case. *)
Theorem wantedRepoOf_wants_a_slash (arg : string) :
  (wantedRepoOf arg = None <-> arg <> "" /\ hasSlash arg = false) /\
  (wantedRepoOf arg = Some "" <-> arg = "") /\
  (hasSlash arg = true -> wantedRepoOf arg = Some (ToLower arg)).
Proof.
  unfold wantedRepoOf. rewrite Contains_slash, hasSlash_ToLower.
  destruct (String.eqb_spec arg "") as [->|Hne]; cbn [negb].
  - cbn. intuition (try discriminate; congruence).
  - destruct (hasSlash arg) eqn:Hs; cbn [negb].
    + split; [|split].
      * intuition discriminate.
      * split; [|contradiction]. intros [= E]. now apply ToLower_empty in E.
      * reflexivity.
    + intuition (try discriminate; congruence).
Qed.

(** With the filter that [main] makes of its owner/repo argument, an event
    gets through exactly when the argument is empty or the repository name
    of the event is, byte for byte, the argument in lower case. *)
Theorem filter_passes_the_lowercased_name (arg wantedRepo repoName : string) :
  wantedRepoOf arg = Some wantedRepo ->
  skipRepo wantedRepo repoName = false
  <-> arg = "" \/ repoName = ToLower arg.
Proof.
  unfold wantedRepoOf, skipRepo.
  destruct (String.eqb_spec arg "") as [->|Hne]; cbn [negb].
  - intros [= <-]. cbn. tauto.
  - destruct (Contains (ToLower arg) "/"); [|discriminate].
    intros [= <-].
    destruct (String.eqb_spec (ToLower arg) "") as [E|_].
    { now apply ToLower_empty in E. }
    cbn [negb andb].
    destruct (String.eqb_spec repoName (ToLower arg)) as [->|Hd]; cbn [negb].
    + tauto.
    + split; [discriminate|]. intros [?|?]; contradiction.
Qed.

(** [main] gets past its arguments exactly when the three environment
    variables are set, there are at least three arguments, the second is
    one of the three summary types, the third is empty or has a slash, and
    the first is a keyword of [pickDate]; it then goes on with the third
    argument in lower case and the begin date of the keyword. *)
Theorem mainStart_goes_on_iff
    (env : string -> string) (args : list string) (now : Time)
    (githubUser githubToken openAIToken summaryType wantedRepo : string)
    (beginDate : Time) :
  mainStart env args now
  = Started githubUser githubToken openAIToken summaryType wantedRepo beginDate
  <->
  (env "GITHUB_USER" = githubUser /\ githubUser <> "") /\
  (env "GITHUB_TOKEN" = githubToken /\ githubToken <> "") /\
  (env "OPENAI_TOKEN" = openAIToken /\ openAIToken <> "") /\
  exists date repo rest,
    args = date :: summaryType :: repo :: rest /\
    validSummaryType summaryType /\
    wantedRepoOf repo = Some wantedRepo /\
    In date keywords /\
    beginDate = fst (pickDate date now).
Proof.
  unfold mainStart, getEnvOrExit, validSummaryType.
  destruct (String.eqb_spec (env "GITHUB_USER") "") as [Eu|Eu].
  { split; [discriminate|]. intros [[<- ?] _]. contradiction. }
  destruct (String.eqb_spec (env "GITHUB_TOKEN") "") as [Et|Et].
  { split; [discriminate|]. intros (_ & [<- ?] & _). contradiction. }
  destruct (String.eqb_spec (env "OPENAI_TOKEN") "") as [Eo|Eo].
  { split; [discriminate|]. intros (_ & _ & [<- ?] & _). contradiction. }
  destruct args as [|date [|st [|repo rest]]]; cbn [length Nat.ltb Nat.leb nth nth_error].
  1,2: split; [discriminate|]; intros (_ & _ & _ & d & r & l & E & _); discriminate.
  - destruct (negb (st =? "executive")%string && negb (st =? "technical")%string
              && negb (st =? "detailed")%string);
      (split; [discriminate|]; intros (_ & _ & _ & d & r & l & E & _); discriminate).
  - destruct (String.eqb_spec st "executive") as [Ee|Ee];
    destruct (String.eqb_spec st "technical") as [Ec|Ec];
    destruct (String.eqb_spec st "detailed") as [Ed|Ed]; cbn [negb andb].
    8:{ split; [discriminate|].
        intros (_ & _ & _ & d & r & l & [= <- <- <- <-] & Hv & _).
        destruct Hv as [?|[?|?]]; contradiction. }
    all: destruct (wantedRepoOf repo) as [wr|] eqn:Ew.
    all: try (split; [discriminate|];
              intros (_ & _ & _ & d & r & l & [= <- <- <- <-] & _ & Hw & _);
              congruence).
    all: destruct (in_dec string_dec date keywords) as [Hin|Hout].
    all: try (rewrite (pickDate_other date now Hout);
              split; [discriminate|];
              intros (_ & _ & _ & d & r & l & [= <- <- <- <-] & _ & _ & Hk & _);
              contradiction).
    all: pose proof (pickDate_keyword date now Hin) as Hk;
         destruct (pickDate date now) as [bd err] eqn:Ep; cbn [snd fst] in *;
         subst err.
    all: split;
         [ intros [= <- <- <- <- <- <-]; repeat split; auto;
           exists date, repo, rest; repeat split; auto; now rewrite Ep
         | intros ([<- _] & [<- _] & [<- _] & d & r & l & [= <- <- <- <-] & _ & Hw & _ & ->);
           rewrite Ew in Hw; injection Hw as <-; rewrite ?Ep; reflexivity ].
Qed.


(** ** The other keywords of [pickDate], on the wall clock *)

Module month_facts.

Lemma monthOk_all : checkRange monthOk 0 13 = true.
Proof. vm_cast_no_check (eq_refl true). Qed.

Lemma monthOk_spec (j : Z) : 0 <= j < 4800 -> monthOk j = true.
Proof.
  intros Hj. apply (checkRange_sound monthOk 13 0 monthOk_all).
  change (2 ^ Z.of_nat 13) with 8192. lia.
Qed.

Lemma dayOk_low : checkRange dayOk 0 17 = true.
Proof. vm_cast_no_check (eq_refl true). Qed.

Lemma dayOk_high : checkRange dayOk 131072 14 = true.
Proof. vm_cast_no_check (eq_refl true). Qed.

Lemma dayOk_spec (d : Z) : 0 <= d < daysPer400Years -> dayOk d = true.
Proof.
  unfold daysPer400Years. intros Hd.
  destruct (Z_lt_le_dec d 131072).
  - apply (checkRange_sound dayOk 17 0 dayOk_low).
    change (2 ^ Z.of_nat 17) with 131072. lia.
  - apply (checkRange_sound dayOk 14 131072 dayOk_high).
    change (2 ^ Z.of_nat 14) with 16384. lia.
Qed.

Lemma DateOf_day_bounds (t : Time) (year month day : Z) :
  DateOf t = (year, month, day) -> 1 <= day <= 31.
Proof.
  unfold DateOf.
  set (n := daysOf t + unixToInternalDays).
  assert (Hr : 0 <= n mod daysPer400Years < daysPer400Years)
    by (apply Z.mod_pos_bound; reflexivity).
  pose proof (dayOk_spec _ Hr) as Hok. unfold dayOk in Hok.
  destruct (yearInCycle (n mod daysPer400Years)) as [k yday].
  rewrite isLeap_cycle.
  destruct (monthDay (isLeap (1 + k)) yday) as [m d].
  intros [= <- <- <-].
  apply orb_true_iff in Hok as [Hok|Hok]; [lia|].
  apply andb_true_iff in Hok as [H1 H2]. lia.
Qed.

Lemma firstDayOfMonth_cycle (c j : Z) :
  firstDayOfMonth (4800 * c + j) = daysPer400Years * c + firstDayOfMonth j.
Proof.
  unfold firstDayOfMonth.
  replace ((4800 * c + j) / 12) with (400 * c + j / 12) by zlia.
  replace ((4800 * c + j) mod 12) with (j mod 12) by zlia.
  replace (1 + (400 * c + j / 12)) with (1 + 400 * c + j / 12) by lia.
  rewrite isLeap_cycle, daysToYear_cycle. lia.
Qed.

(** [time.Date] on the first day of a month, at midnight. *)
Lemma Date_first (year month : Z) :
  Date year month 1 0 0 0 0
  = mkTime ((firstDayOfMonth (12 * (year - 1) + (month - 1)) - unixToInternalDays)
            * nsPerDay).
Proof.
  unfold Date, firstDayOfMonth. f_equal.
  replace ((12 * (year - 1) + (month - 1)) / 12)
    with (year + (month - 1) / 12 - 1) by zlia.
  replace ((12 * (year - 1) + (month - 1)) mod 12)
    with ((month - 1) mod 12) by zlia.
  replace (1 + (year + (month - 1) / 12 - 1)) with (year + (month - 1) / 12) by lia.
  lia.
Qed.

Lemma daysOf_midnight (d : Z) : daysOf (mkTime (d * nsPerDay)) = d.
Proof. unfold daysOf. cbn [wall]. now apply Z.div_mul. Qed.

Lemma nsOfDay_midnight (d : Z) : nsOfDay (mkTime (d * nsPerDay)) = 0.
Proof. unfold nsOfDay. cbn [wall]. apply Z_mod_mult. Qed.

(** The date of the first day of month [j]. *)
Lemma DateOf_first (j : Z) :
  DateOf (mkTime ((firstDayOfMonth j - unixToInternalDays) * nsPerDay))
  = (1 + j / 12, j mod 12 + 1, 1).
Proof.
  set (c := j / 4800). set (i := j mod 4800).
  assert (Hi : 0 <= i < 4800) by (subst i; zlia).
  assert (Ej : j = 4800 * c + i) by (subst c i; zlia).
  pose proof (monthOk_spec i Hi) as Hok. unfold monthOk in Hok.
  apply orb_true_iff in Hok as [Hok|Hok]; [lia|].
  unfold DateOf. rewrite daysOf_midnight.
  replace (firstDayOfMonth j - unixToInternalDays + unixToInternalDays)
    with (daysPer400Years * c + firstDayOfMonth i)
    by (rewrite Ej, firstDayOfMonth_cycle; lia).
  destruct (yearInCycle (firstDayOfMonth i)) as [k' yday] eqn:Ey.
  destruct (monthDay (isLeap (1 + i / 12)) yday) as [month day] eqn:Em.
  repeat (apply andb_true_iff in Hok as [Hok ?]).
  assert (Hd : 0 <= firstDayOfMonth i < daysPer400Years) by lia.
  replace ((daysPer400Years * c + firstDayOfMonth i) / daysPer400Years) with c
    by (unfold daysPer400Years in *; zlia).
  replace ((daysPer400Years * c + firstDayOfMonth i) mod daysPer400Years)
    with (firstDayOfMonth i) by (unfold daysPer400Years in *; zlia).
  rewrite Ey, isLeap_cycle.
  assert (k' = i / 12) by lia. subst k'. rewrite Em.
  f_equal; [f_equal|]; zlia.
Qed.

Lemma month_length (j : Z) :
  28 <= firstDayOfMonth (j + 1) - firstDayOfMonth j <= 31.
Proof.
  set (c := j / 4800). set (i := j mod 4800).
  assert (Hi : 0 <= i < 4800) by (subst i; zlia).
  assert (Ej : j = 4800 * c + i) by (subst c i; zlia).
  pose proof (monthOk_spec i Hi) as Hok. unfold monthOk in Hok.
  apply orb_true_iff in Hok as [Hok|Hok]; [lia|].
  destruct (yearInCycle (firstDayOfMonth i)) as [k' yday].
  destruct (monthDay (isLeap (1 + i / 12)) yday) as [month day].
  repeat (apply andb_true_iff in Hok as [Hok ?]).
  rewrite Ej. replace (4800 * c + i + 1) with (4800 * c + (i + 1)) by lia.
  rewrite !firstDayOfMonth_cycle. lia.
Qed.

End month_facts.

Import month_facts.

(** On the wall clock: [today] is [now] itself; [yesterday] and
    [last-3days] are one and three whole days before it. *)
Lemma wall_rolling_keywords (now : Time) :
  pickDate "today" now = (now, None) /\
  pickDate "yesterday" now = (mkTime (wall now - nsPerDay), None) /\
  pickDate "last-3days" now = (mkTime (wall now - 3 * nsPerDay), None).
Proof.
  unfold pickDate. cbn [String.eqb Ascii.eqb Bool.eqb].
  rewrite !AddDate_days.
  assert (E1 : wall now + -1 * nsPerDay = wall now - nsPerDay) by lia.
  assert (E3 : wall now + -3 * nsPerDay = wall now - 3 * nsPerDay) by lia.
  rewrite E1, E3. repeat split.
Qed.

(** On the wall clock: [last-week] goes back [Weekday now + 6] whole days
    and lands on a Monday. *)
Lemma wall_last_week (now : Time) :
  let r := pickDate "last-week" now in
  snd r = None /\
  Weekday (fst r) = Monday /\
  nsOfDay (fst r) = nsOfDay now /\
  wall now - wall (fst r) = (Weekday now + 6) * nsPerDay /\
  0 <= Weekday now <= 6.
Proof.
  rewrite pickDate_last_week. cbn [fst snd wall].
  assert (Hw : 0 <= Weekday now < 7) by (unfold Weekday; zlia).
  replace (wall now - (Weekday now + 6) * nsPerDay)
    with (wall now + (- (Weekday now + 6)) * nsPerDay) by lia.
  split; [reflexivity|]. split.
  { rewrite Weekday_shift. unfold Monday. zlia. }
  split; [apply nsOfDay_shift|]. lia.
Qed.

Lemma Date_first_of (year month : Z) :
  1 <= month <= 12 ->
  DateOf (Date year month 1 0 0 0 0) = (year, month, 1) /\
  ClockOf (Date year month 1 0 0 0 0) = (0, 0, 0) /\
  Nanosecond (Date year month 1 0 0 0 0) = 0.
Proof.
  intros Hm. rewrite Date_first. split; [|split].
  - rewrite DateOf_first.
    replace ((12 * (year - 1) + (month - 1)) / 12) with (year - 1) by zlia.
    replace ((12 * (year - 1) + (month - 1)) mod 12) with (month - 1) by zlia.
    f_equal. f_equal; lia.
  - unfold ClockOf. now rewrite nsOfDay_midnight.
  - unfold Nanosecond, nsPerDay. cbn [wall].
    rewrite Z.mul_assoc. apply Z_mod_mult.
Qed.

(** On the wall clock: [this-month] is midnight of the first day of the
    month and year of [now]. *)
Lemma wall_this_month (now : Time) (year month day : Z) :
  DateOf now = (year, month, day) ->
  let r := pickDate "this-month" now in
  snd r = None /\
  DateOf (fst r) = (year, month, 1) /\
  ClockOf (fst r) = (0, 0, 0) /\
  wall now - wall (fst r) = (day - 1) * nsPerDay + nsOfDay now /\
  wall (fst r) <= wall now < wall (fst r) + 31 * nsPerDay.
Proof.
  intros Hd. unfold pickDate. cbn [String.eqb Ascii.eqb Bool.eqb].
  rewrite Hd. cbn [fst snd].
  pose proof (DateOf_day_bounds now _ _ _ Hd) as Hday.
  destruct (Date_DateOf now _ _ _ Hd) as [Hm Hdays].
  destruct (Date_first_of year month Hm) as (H1 & H2 & _).
  split; [reflexivity|]. split; [exact H1|]. split; [exact H2|].
  assert (Hgap : wall now - wall (Date year month 1 0 0 0 0)
                 = (day - 1) * nsPerDay + nsOfDay now).
  { unfold Date. cbn [wall].
    replace ((month - 1) / 12) with 0 by zlia.
    replace ((month - 1) mod 12) with (month - 1) by zlia.
    replace (year + 0) with year by lia.
    assert (W : wall now = daysOf now * nsPerDay + nsOfDay now).
    { unfold daysOf, nsOfDay. pose proof (Z.div_mod (wall now) nsPerDay).
      unfold nsPerDay, nsPerSecond in *. lia. }
    rewrite W at 1. rewrite <- Hdays. unfold nsPerDay, nsPerSecond. lia. }
  split; [exact Hgap|].
  assert (0 <= nsOfDay now < nsPerDay)
    by (unfold nsOfDay; apply Z.mod_pos_bound; reflexivity).
  unfold nsPerDay, nsPerSecond in *. lia.
Qed.

(** On the wall clock: [last-month] is midnight of the first day of the
    month before the month of [now]. *)
Lemma wall_last_month (now : Time) (year month day : Z) :
  DateOf now = (year, month, day) ->
  let r := pickDate "last-month" now in
  snd r = None /\
  DateOf (fst r)
  = (if month =? 1 then (year - 1, 12, 1) else (year, month - 1, 1)) /\
  ClockOf (fst r) = (0, 0, 0) /\
  28 * nsPerDay
  <= wall (fst (pickDate "this-month" now)) - wall (fst r)
  <= 31 * nsPerDay.
Proof.
  intros Hd. unfold pickDate. cbn [String.eqb Ascii.eqb Bool.eqb].
  rewrite Hd. cbn [fst snd].
  destruct (Date_DateOf now _ _ _ Hd) as [Hm _].
  destruct (Date_first_of year month Hm) as (H1 & H2 & H3).
  unfold AddDate. rewrite H1, H2, H3.
  replace (year + 0) with year by lia.
  replace (1 + 0) with 1 by lia.
  rewrite !Date_first.
  set (j := 12 * (year - 1) + (month + -1 - 1)).
  replace (12 * (year - 1) + (month - 1)) with (j + 1) by (subst j; lia).
  split; [reflexivity|]. split.
  { rewrite DateOf_first. subst j.
    destruct (Z.eqb_spec month 1) as [->|Hne].
    - replace ((12 * (year - 1) + (1 + -1 - 1)) / 12) with (year - 2) by zlia.
      replace ((12 * (year - 1) + (1 + -1 - 1)) mod 12) with 11 by zlia.
      f_equal. f_equal. lia.
    - replace ((12 * (year - 1) + (month + -1 - 1)) / 12) with (year - 1) by zlia.
      replace ((12 * (year - 1) + (month + -1 - 1)) mod 12) with (month - 2) by zlia.
      f_equal. f_equal; lia. }
  split.
  { unfold ClockOf. now rewrite nsOfDay_midnight. }
  cbn [wall]. pose proof (month_length j) as Hlen.
  unfold nsPerDay, nsPerSecond. lia.
Qed.

(** ** [pickDate] in a location *)

Module zoned_facts.

Section FixedOffset.

Variable loc : zoned.Location.
Variable off : Z.
Hypothesis Hfixed : zoned.fixedOffset loc off.

Lemma wallClock_fixed (t : zoned.Time) :
  zoned.wallClock loc t = mkTime (zoned.unixNano t + off * nsPerSecond).
Proof. unfold zoned.wallClock. now rewrite Hfixed. Qed.

(** In a location with a fixed offset, [Date] builds the instant whose
    wall clock is the civil time asked for. *)
Lemma wallClock_Date (year month day hour min sec nsec : Z) :
  zoned.wallClock loc (zoned.Date loc year month day hour min sec nsec)
  = Date year month day hour min sec nsec.
Proof.
  rewrite wallClock_fixed. unfold zoned.Date.
  destruct (Date year month day hour min sec nsec) as [civil]. cbn [wall].
  rewrite !Hfixed. cbv zeta.
  assert (E : (if (civil / nsPerSecond - off <? zoned.zoneStart (loc (civil / nsPerSecond)))
                  || (zoned.zoneEnd (loc (civil / nsPerSecond)) <=? civil / nsPerSecond - off)
               then off else off) = off) by (now destruct (_ || _)).
  rewrite E. f_equal.
  destruct (Z.eqb_spec off 0) as [->|Hne]; cbn [negb zoned.unixNano];
    unfold nsPerSecond; zlia.
Qed.

Lemma Nanosecond_wallClock (t : zoned.Time) :
  Nanosecond (zoned.wallClock loc t) = zoned.Nanosecond t.
Proof.
  rewrite wallClock_fixed. unfold Nanosecond, zoned.Nanosecond. cbn [wall].
  apply Z_mod_plus_full.
Qed.

Lemma wallClock_AddDate (years months days : Z) (t : zoned.Time) :
  zoned.wallClock loc (zoned.AddDate loc years months days t)
  = AddDate years months days (zoned.wallClock loc t).
Proof.
  unfold zoned.AddDate, AddDate, zoned.DateOf, zoned.ClockOf.
  destruct (DateOf (zoned.wallClock loc t)) as [[year month] day].
  destruct (ClockOf (zoned.wallClock loc t)) as [[hour min] sec].
  now rewrite wallClock_Date, Nanosecond_wallClock.
Qed.

(** In a location with a fixed offset, the begin date of [pickDate] shows
    the wall clock that the wall-clock [pickDate] computes from the wall
    clock of [now], with the same error. *)
Lemma pickDate_wallClock (arg : string) (now : zoned.Time) :
  zoned.wallClock loc (fst (zoned.pickDate loc arg now))
  = fst (pickDate arg (zoned.wallClock loc now)) /\
  snd (zoned.pickDate loc arg now) = snd (pickDate arg (zoned.wallClock loc now)).
Proof.
  unfold zoned.pickDate, pickDate, zoned.Weekday, zoned.DateOf.
  repeat match goal with
  | |- context [String.eqb arg ?k] => destruct (String.eqb arg k)
  end;
  try destruct (DateOf (zoned.wallClock loc now)) as [[year month] day];
  cbn [fst snd]; rewrite ?wallClock_AddDate, ?wallClock_Date; split; reflexivity.
Qed.

(** An instant is determined by its wall clock. *)
Lemma unixNano_wallClock (t : zoned.Time) :
  zoned.unixNano t = wall (zoned.wallClock loc t) - off * nsPerSecond.
Proof. rewrite wallClock_fixed. cbn [wall]. lia. Qed.

Lemma unixNano_pickDate (arg : string) (now : zoned.Time) :
  zoned.unixNano (fst (zoned.pickDate loc arg now))
  = wall (fst (pickDate arg (zoned.wallClock loc now))) - off * nsPerSecond.
Proof.
  rewrite unixNano_wallClock. now destruct (pickDate_wallClock arg now) as [-> _].
Qed.

End FixedOffset.

End zoned_facts.

Import zoned_facts.

(** In a location whose offset is fixed, [today] is the current instant
    itself, and [yesterday] and [last-3days] are the instants exactly 24
    and 72 hours before it, which show the same time of day. *)
Theorem pickDate_rolling_keywords
    (loc : zoned.Location) (off : Z) (now : zoned.Time) :
  zoned.fixedOffset loc off ->
  zoned.pickDate loc "today" now = (now, None) /\
  zoned.pickDate loc "yesterday" now
  = (zoned.mkTime (zoned.unixNano now - nsPerDay), None) /\
  zoned.pickDate loc "last-3days" now
  = (zoned.mkTime (zoned.unixNano now - 3 * nsPerDay), None) /\
  zoned.ClockOf loc (fst (zoned.pickDate loc "yesterday" now))
  = zoned.ClockOf loc now /\
  zoned.ClockOf loc (fst (zoned.pickDate loc "last-3days" now))
  = zoned.ClockOf loc now.
Proof.
  intros Hf.
  destruct (wall_rolling_keywords (zoned.wallClock loc now)) as (_ & Hy & H3).
  destruct (pickDate_wallClock loc off Hf "yesterday" now) as [Wy Ey].
  destruct (pickDate_wallClock loc off Hf "last-3days" now) as [W3 E3].
  rewrite Hy in Wy, Ey. rewrite H3 in W3, E3. cbn [fst snd] in *.
  assert (Uy : zoned.unixNano (fst (zoned.pickDate loc "yesterday" now))
               = zoned.unixNano now - nsPerDay).
  { rewrite (unixNano_wallClock loc off Hf), Wy. cbn [wall].
    rewrite (unixNano_wallClock loc off Hf now). lia. }
  assert (U3 : zoned.unixNano (fst (zoned.pickDate loc "last-3days" now))
               = zoned.unixNano now - 3 * nsPerDay).
  { rewrite (unixNano_wallClock loc off Hf), W3. cbn [wall].
    rewrite (unixNano_wallClock loc off Hf now). lia. }
  split; [reflexivity|].
  split.
  { destruct (zoned.pickDate loc "yesterday" now) as [[u] e].
    cbn [fst snd zoned.unixNano] in *. now subst. }
  split.
  { destruct (zoned.pickDate loc "last-3days" now) as [[u] e].
    cbn [fst snd zoned.unixNano] in *. now subst. }
  unfold zoned.ClockOf. rewrite Wy, W3. unfold ClockOf.
  replace (wall (zoned.wallClock loc now) - nsPerDay)
    with (wall (zoned.wallClock loc now) + (-1) * nsPerDay) by lia.
  replace (wall (zoned.wallClock loc now) - 3 * nsPerDay)
    with (wall (zoned.wallClock loc now) + (-3) * nsPerDay) by lia.
  rewrite !nsOfDay_shift. split; reflexivity.
Qed.

(** In a location whose offset is fixed, and when it is not Sunday there,
    [last-week] yields the instant that shows the Monday of the week before,
    at the time of day of [now]: exactly seven days before the begin date
    of [this-week]. *)
Theorem pickDate_last_week_is_the_monday_before
    (loc : zoned.Location) (off : Z) (now : zoned.Time) :
  zoned.fixedOffset loc off ->
  zoned.Weekday loc now <> Sunday ->
  let r := zoned.pickDate loc "last-week" now in
  snd r = None /\
  zoned.Weekday loc (fst r) = Monday /\
  zoned.ClockOf loc (fst r) = zoned.ClockOf loc now /\
  zoned.unixNano (fst (zoned.pickDate loc "this-week" now))
    - zoned.unixNano (fst r) = 7 * nsPerDay /\
  zoned.unixNano now - zoned.unixNano (fst r)
  = (zoned.Weekday loc now + 6) * nsPerDay.
Proof.
  intros Hf Hday. cbv zeta.
  destruct (pickDate_wallClock loc off Hf "last-week" now) as [Wr Er].
  destruct (wall_last_week (zoned.wallClock loc now)) as (H1 & H2 & H3 & H4 & _).
  pose proof (pickDate_last_week_gap (zoned.wallClock loc now)) as Hgap.
  unfold zoned.Weekday in *.
  destruct (Z.eqb_spec (Weekday (zoned.wallClock loc now)) Sunday) as [E|_];
    [contradiction|].
  split; [now rewrite Er|].
  split; [now rewrite Wr|].
  split.
  { unfold zoned.ClockOf, ClockOf. now rewrite Wr, H3. }
  rewrite !(unixNano_pickDate loc off Hf), (unixNano_wallClock loc off Hf now).
  split; lia.
Qed.

(** In a location whose offset is fixed, [this-month] yields the instant
    that shows midnight of the first day of the month and year that [now]
    shows: the day of the month minus one whole days, and the time of day,
    before [now]. *)
Theorem pickDate_this_month_is_the_first
    (loc : zoned.Location) (off : Z) (now : zoned.Time) (year month day : Z) :
  zoned.fixedOffset loc off ->
  zoned.DateOf loc now = (year, month, day) ->
  let r := zoned.pickDate loc "this-month" now in
  snd r = None /\
  zoned.DateOf loc (fst r) = (year, month, 1) /\
  zoned.ClockOf loc (fst r) = (0, 0, 0) /\
  zoned.unixNano now - zoned.unixNano (fst r)
  = (day - 1) * nsPerDay + nsOfDay (zoned.wallClock loc now) /\
  zoned.unixNano (fst r) <= zoned.unixNano now
  < zoned.unixNano (fst r) + 31 * nsPerDay.
Proof.
  intros Hf Hd. cbv zeta. unfold zoned.DateOf in Hd.
  destruct (pickDate_wallClock loc off Hf "this-month" now) as [Wr Er].
  destruct (wall_this_month (zoned.wallClock loc now) _ _ _ Hd)
    as (H1 & H2 & H3 & H4 & H5).
  split; [now rewrite Er|].
  split; [unfold zoned.DateOf; now rewrite Wr|].
  split; [unfold zoned.ClockOf; now rewrite Wr|].
  rewrite !(unixNano_pickDate loc off Hf), (unixNano_wallClock loc off Hf now).
  split; lia.
Qed.

(** In a location whose offset is fixed, [last-month] yields the instant
    that shows midnight of the first day of the month before the month
    that [now] shows (December of the year before in January), 28 to 31
    days before the begin date of [this-month]. *)
Theorem pickDate_last_month_is_the_first
    (loc : zoned.Location) (off : Z) (now : zoned.Time) (year month day : Z) :
  zoned.fixedOffset loc off ->
  zoned.DateOf loc now = (year, month, day) ->
  let r := zoned.pickDate loc "last-month" now in
  snd r = None /\
  zoned.DateOf loc (fst r)
  = (if month =? 1 then (year - 1, 12, 1) else (year, month - 1, 1)) /\
  zoned.ClockOf loc (fst r) = (0, 0, 0) /\
  28 * nsPerDay
  <= zoned.unixNano (fst (zoned.pickDate loc "this-month" now))
     - zoned.unixNano (fst r)
  <= 31 * nsPerDay.
Proof.
  intros Hf Hd. cbv zeta. unfold zoned.DateOf in Hd.
  destruct (pickDate_wallClock loc off Hf "last-month" now) as [Wr Er].
  destruct (wall_last_month (zoned.wallClock loc now) _ _ _ Hd)
    as (H1 & H2 & H3 & H4).
  split; [now rewrite Er|].
  split; [unfold zoned.DateOf; now rewrite Wr|].
  split; [unfold zoned.ClockOf; now rewrite Wr|].
  rewrite !(unixNano_pickDate loc off Hf). lia.
Qed.

(** Where the offset of the location changes, the exact distances above do
    not hold.  In New York, the day before 11 March 2024 02:30 has no
    02:30 (the clocks went forward at 02:00): [yesterday] yields 01:30 of
    10 March.  And from noon of 10 March, [yesterday] is noon of 9 March,
    23 hours earlier. *)
Example yesterday_across_a_transition :
  let now := zoned.Date zoned.NewYork2024 2024 3 11 2 30 0 0 in
  let r := fst (zoned.pickDate zoned.NewYork2024 "yesterday" now) in
  zoned.ClockOf zoned.NewYork2024 now = (2, 30, 0) /\
  zoned.DateOf zoned.NewYork2024 r = (2024, 3, 10) /\
  zoned.ClockOf zoned.NewYork2024 r = (1, 30, 0) /\
  let noon := zoned.Date zoned.NewYork2024 2024 3 10 12 0 0 0 in
  let r' := fst (zoned.pickDate zoned.NewYork2024 "yesterday" noon) in
  zoned.ClockOf zoned.NewYork2024 r' = (12, 0, 0) /\
  zoned.unixNano noon - zoned.unixNano r' = 23 * 3600 * nsPerSecond.
Proof. vm_compute. repeat split. Qed.

(** ** Concrete instances of the further properties *)

Import more_samples.

Lemma handlePage_stops_at_an_older_event_witness :
  Before (CreatedAt pushedAtNewYear) noon = true /\
  handlePage echoModel noon ""
    [issue5opened; pushedAtNewYear; issue10opened] (initialState "alice")
  = handlePage echoModel noon "" [issue5opened] (initialState "alice").
Proof.
  split; [reflexivity|].
  apply (handlePage_stops_at_an_older_event echoModel noon ""
           [issue5opened] [issue10opened] pushedAtNewYear).
  reflexivity.
Defined.

Lemma ingest_never_replaces_a_record_witness :
  targetMap true (w withPull5) !! 5 = Some pull5record /\
  exists s',
    ingest echoModel [pull5closed; pull5reviewed; issue5opened] withPull5
    = Some (tt, s') /\
    targetMap true (w s') !! 5 = Some pull5record /\
    user (w s') = user (w withPull5).
Proof.
  assert (H : targetMap true (w withPull5) !! 5 = Some pull5record)
    by (vm_compute; reflexivity).
  split; [exact H|].
  exact (ingest_never_replaces_a_record echoModel
           [pull5closed; pull5reviewed; issue5opened] withPull5 true 5
           pull5record H).
Defined.

Lemma first_event_decides_the_record_witness :
  eventItem issue5opened = Some (IssueItem issue5) /\
  existsb (routes false 5) [pull5closed; pushed] = false /\
  exists s item,
    ingest echoModel ([pull5closed; pushed] ++ issue5opened :: [issue5reopened])%list
      (initialState "alice") = Some (tt, s) /\
    issues (w s) !! 5 = Some item /\
    title item = "Crash on start" /\
    author item = true.
Proof.
  split; [reflexivity|]. split; [reflexivity|].
  destruct (first_event_decides_the_record echoModel "alice"
              [pull5closed; pushed] [issue5reopened] issue5opened
              (IssueItem issue5) eq_refl eq_refl)
    as (s & item & H & Hi & _ & _ & Ht & Ha).
  exists s, item. split; [exact H|]. split; [exact Hi|].
  split; [exact Ht|exact Ha].
Defined.

Lemma action_content_is_the_summary_of_the_body_witness :
  eventNumber issue5commented = Some 5 /\
  exists s' a,
    handleEvent echoModel issue5commented (initialState "alice") = Some (tt, s') /\
    last (getAction (w s') 5) = Some a /\
    a_content a
    = match echoModel (pred (llmCalls s')) rewriteRole (rewriteInstr "Still there.") with
      | Some content => content
      | None => ""
      end.
Proof.
  split; [reflexivity|].
  destruct (action_content_is_the_summary_of_the_body echoModel
              issue5commented (initialState "alice") 5 eq_refl)
    as (s' & a & H & Hl & _ & Hc).
  exists s', a. split; [exact H|]. split; [exact Hl|exact Hc].
Defined.

Lemma mainRun_never_panics_witness :
  visitsAll listOrder /\
  exists s out,
    ingest silentModel [issue5opened; pull42closed] (initialState "alice")
    = Some (tt, s) /\
    mainRun silentModel listOrder "alice" "executive" "o/r" noon
      [[issue5opened; pull5closed; pushedAtNewYear; issue10opened]; [pull42closed]]
    = Some (out, mkState (w s) (2 + 2 * (1 + 1) + 1)).
Proof.
  assert (Hv : visitsAll listOrder) by (intros m; reflexivity).
  split; [exact Hv|].
  destruct (mainRun_never_panics silentModel listOrder "alice" "executive" "o/r"
              noon
              [[issue5opened; pull5closed; pushedAtNewYear; issue10opened];
               [pull42closed]] Hv)
    as (s & out & Hs & Hm).
  exists s, out. split; [exact Hs|].
  rewrite Hm. vm_compute in Hs. injection Hs as <-. reflexivity.
Defined.

Lemma filter_passes_the_lowercased_name_witness :
  wantedRepoOf "Owner/Repo" = Some "owner/repo" /\
  skipRepo "owner/repo" "owner/repo" = false.
Proof.
  split; [reflexivity|].
  apply (filter_passes_the_lowercased_name "Owner/Repo" "owner/repo" "owner/repo");
    [reflexivity|].
  right. reflexivity.
Defined.


Lemma pickDate_rolling_keywords_witness :
  zoned.fixedOffset zoned.UTC 0 /\
  zoned.pickDate zoned.UTC "yesterday" noonUTC
  = (zoned.Date zoned.UTC 2024 1 2 12 0 0 0, None).
Proof.
  assert (Hf : zoned.fixedOffset zoned.UTC 0) by (intros u; reflexivity).
  split; [exact Hf|].
  destruct (pickDate_rolling_keywords zoned.UTC 0 noonUTC Hf) as (_ & Hy & _).
  rewrite Hy. reflexivity.
Defined.

Lemma pickDate_last_week_is_the_monday_before_witness :
  zoned.fixedOffset zoned.UTC 0 /\
  zoned.Weekday zoned.UTC noonUTC <> Sunday /\
  zoned.unixNano (fst (zoned.pickDate zoned.UTC "this-week" noonUTC))
    - zoned.unixNano (fst (zoned.pickDate zoned.UTC "last-week" noonUTC))
  = 7 * nsPerDay.
Proof.
  assert (Hf : zoned.fixedOffset zoned.UTC 0) by (intros u; reflexivity).
  assert (Hd : zoned.Weekday zoned.UTC noonUTC <> Sunday) by discriminate.
  split; [exact Hf|]. split; [exact Hd|].
  destruct (pickDate_last_week_is_the_monday_before zoned.UTC 0 noonUTC Hf Hd)
    as (_ & _ & _ & H & _).
  exact H.
Defined.

Lemma pickDate_this_month_is_the_first_witness :
  zoned.fixedOffset zoned.UTC 0 /\
  zoned.DateOf zoned.UTC noonUTC = (2024, 1, 3) /\
  zoned.DateOf zoned.UTC (fst (zoned.pickDate zoned.UTC "this-month" noonUTC))
  = (2024, 1, 1) /\
  zoned.ClockOf zoned.UTC (fst (zoned.pickDate zoned.UTC "this-month" noonUTC))
  = (0, 0, 0).
Proof.
  assert (Hf : zoned.fixedOffset zoned.UTC 0) by (intros u; reflexivity).
  assert (Hd : zoned.DateOf zoned.UTC noonUTC = (2024, 1, 3)) by reflexivity.
  split; [exact Hf|]. split; [exact Hd|].
  destruct (pickDate_this_month_is_the_first zoned.UTC 0 noonUTC 2024 1 3 Hf Hd)
    as (_ & H1 & H2 & _).
  split; [exact H1|exact H2].
Defined.

Lemma pickDate_last_month_is_the_first_witness :
  zoned.fixedOffset zoned.UTC 0 /\
  zoned.DateOf zoned.UTC noonUTC = (2024, 1, 3) /\
  zoned.DateOf zoned.UTC (fst (zoned.pickDate zoned.UTC "last-month" noonUTC))
  = (2023, 12, 1).
Proof.
  assert (Hf : zoned.fixedOffset zoned.UTC 0) by (intros u; reflexivity).
  assert (Hd : zoned.DateOf zoned.UTC noonUTC = (2024, 1, 3)) by reflexivity.
  split; [exact Hf|]. split; [exact Hd|].
  destruct (pickDate_last_month_is_the_first zoned.UTC 0 noonUTC 2024 1 3 Hf Hd)
    as (_ & H1 & _).
  exact H1.
Defined.
